(** * Code Vault: the similarity and de-duplication core

    A shallow embedding of the similarity engine of the snippet vault:
    the server's suggestion ranker ([analyzeSimilarity] and its helpers),
    the desktop renderer's local fallback ([performLocalAnalysis]) and the
    editor extension's duplicate guard ([generateCodeHash],
    [calculateCodeSimilarity], [isCodeAlreadyInVault], the recently-processed
    set of [saveSnippetToVault]).

    Conventions of the embedding.
    - A JavaScript string is a [string]: a sequence of code units, one
      [ascii] each, read as code units 0..255 (the Latin-1 range, which
      [toLowerCase] maps into itself).
    - A JavaScript [Set] built from an array is the list of its distinct
      elements in insertion order (the order [...set] iterates in).
    - A similarity is the quotient of two set sizes; it is kept as the exact
      rational in [Q], and the literals 0.3, 0.5, 0.7 and 0.8 are the
      rationals 3/10, 1/2, 7/10 and 4/5.  Division in binary64 rounds to
      nearest and is monotone, and a literal is the rounding of its decimal
      value, so a quotient of two sizes compares with a literal as the
      rationals do for all sizes a string can produce; two different
      quotients can round to the same number only for sets of more than
      2^26 elements.
    - The module-level state of the extension ([recentlyProcessed], the
      pending [setTimeout] callbacks and the snippet cache) is an explicit
      record, and the event loop is a step relation over it with a
      millisecond clock. *)

From Stdlib Require Import ZArith NArith QArith Ascii String List Bool Lia.
From Stdlib Require Import Sorting.Sorted Sorting.Permutation.
From stdpp Require Import base decidable list strings gmap sets.

Local Open Scope string_scope.
Local Open Scope list_scope.

(** ** JavaScript string primitives *)

Module JS.

Definition code (c : ascii) : N := N_of_ascii c.

Definition between (lo hi : N) (c : ascii) : bool :=
  ((lo <=? code c) && (code c <=? hi))%N.

(** [\d] *)
Definition isDigit (c : ascii) : bool := between 48 57 c.

(** [\w]: [A-Za-z0-9_] *)
Definition isWord (c : ascii) : bool :=
  between 97 122 c || between 65 90 c || isDigit c || (code c =? 95)%N.

(** Line terminators: the characters [.] refuses and before which [$]
    matches under the [m] flag (LF and CR in this range). *)
Definition isLineTerminator (c : ascii) : bool :=
  ((code c =? 10) || (code c =? 13))%N.

(** [\s]: TAB, LF, VT, FF, CR, space and the no-break space. *)
Definition isSpace (c : ascii) : bool :=
  between 9 13 c || (code c =? 32)%N || (code c =? 160)%N.

(** One code unit of [String.prototype.toLowerCase]: A-Z, and the
    Latin-1 capitals U+00C0..U+00DE except the multiplication sign. *)
Definition lowerChar (c : ascii) : ascii :=
  if between 65 90 c || (between 192 222 c && negb (code c =? 215)%N)
  then ascii_of_N (code c + 32)
  else c.

Fixpoint toLowerCase (s : string) : string :=
  match s with
  | EmptyString => EmptyString
  | String c s' => String (lowerChar c) (toLowerCase s')
  end.

(** [s.split(sep)] for a separator that is one character of a class:
    [split('\n')] and [split(/[^\w]/)].  The result is never empty. *)
Fixpoint splitOn (sep : ascii -> bool) (s : string) : list string :=
  match s with
  | EmptyString => [EmptyString]
  | String c s' =>
      if sep c then EmptyString :: splitOn sep s'
      else match splitOn sep s' with
           | t :: ts => String c t :: ts
           | [] => [String c EmptyString]
           end
  end.

(** [arr.join(sep)] *)
Fixpoint join (sep : string) (l : list string) : string :=
  match l with
  | [] => EmptyString
  | [x] => x
  | x :: rest => x +:+ sep +:+ join sep rest
  end.

(** [s.trim()] *)
Fixpoint trimStart (s : string) : string :=
  match s with
  | EmptyString => EmptyString
  | String c s' => if isSpace c then trimStart s' else s
  end.

Fixpoint trimEnd (s : string) : string :=
  match s with
  | EmptyString => EmptyString
  | String c s' =>
      match trimEnd s' with
      | EmptyString => if isSpace c then EmptyString else String c EmptyString
      | t => String c t
      end
  end.

Definition trim (s : string) : string := trimEnd (trimStart s).

(** [s.replace(re, rep)] for a global regular expression [re] that never
    matches the empty string.  [matchAt prev s] is the length of the match
    of [re] that starts at the head of [s], where [prev] is the character
    before it in the subject (for [\b]), or [None] when [re] does not match
    there.  The scan goes left to right; after a match it resumes behind
    the match, otherwise it copies one character and moves on.  [skip]
    counts the characters of the current match still to be consumed. *)
Fixpoint replaceFrom (matchAt : option ascii -> string -> option nat)
    (rep : string) (skip : nat) (prev : option ascii) (s : string) : string :=
  match s with
  | EmptyString => EmptyString
  | String c s' =>
      match skip with
      | S k => replaceFrom matchAt rep k (Some c) s'
      | O =>
          match matchAt prev s with
          | Some (S k) => rep +:+ replaceFrom matchAt rep k (Some c) s'
          | _ => String c (replaceFrom matchAt rep 0 (Some c) s')
          end
      end
  end.

Definition replaceAll (matchAt : option ascii -> string -> option nat)
    (rep : string) (s : string) : string :=
  replaceFrom matchAt rep 0 None s.

(** Length of the longest prefix of [s] whose characters satisfy [p]:
    a greedy [p*]. *)
Fixpoint spanLength (p : ascii -> bool) (s : string) : nat :=
  match s with
  | String c s' => if p c then S (spanLength p s') else 0
  | EmptyString => 0
  end.

Definition notLineTerminator (c : ascii) : bool := negb (isLineTerminator c).

(** [/\/\/.*$/gm]: two slashes, then greedily everything up to the end of
    the line; [$] holds there (end of input or before a line terminator). *)
Definition matchLineComment (_ : option ascii) (s : string) : option nat :=
  match s with
  | String "/" (String "/" rest) => Some (2 + spanLength notLineTerminator rest)
  | _ => None
  end.

(** Offset of the first occurrence of [*/] in [s]: the lazy [[\s\S]*?]. *)
Fixpoint findCommentEnd (s : string) : option nat :=
  match s with
  | EmptyString => None
  | String c s' =>
      match c, s' with
      | "*"%char, String "/" _ => Some 0
      | _, _ => option_map S (findCommentEnd s')
      end
  end.

(** [/\/\*[\s\S]*?\*\//g] *)
Definition matchBlockComment (_ : option ascii) (s : string) : option nat :=
  match s with
  | String "/" (String "*" rest) =>
      option_map (fun k => 2 + k + 2) (findCommentEnd rest)
  | _ => None
  end.

(** [/\s+/g] *)
Definition matchSpaces (_ : option ascii) (s : string) : option nat :=
  match spanLength isSpace s with
  | O => None
  | n => Some n
  end.

(** The body and closing quote of [/q([^q\\]|\\.)*q/]: the number of
    characters up to and including the closing quote.  At each character
    exactly one continuation applies (close on the quote, take an escape
    pair, take an ordinary character), and the loop never stops in front
    of a quote it could have consumed, so backtracking finds nothing the
    greedy run has not found. *)
Fixpoint quotedBody (q : ascii) (escaped : bool) (s : string) : option nat :=
  match s with
  | EmptyString => None
  | String c s' =>
      if escaped then
        if isLineTerminator c then None
        else option_map S (quotedBody q false s')
      else if Ascii.eqb c q then Some 1
      else if Ascii.eqb c "\"%char then option_map S (quotedBody q true s')
      else option_map S (quotedBody q false s')
  end.

Definition matchQuoted (q : ascii) (_ : option ascii) (s : string) : option nat :=
  match s with
  | String c rest =>
      if Ascii.eqb c q then option_map S (quotedBody q false rest) else None
  | EmptyString => None
  end.

Definition isWordOpt (o : option ascii) : bool :=
  match o with Some c => isWord c | None => false end.

Fixpoint charAt (s : string) (n : nat) : option ascii :=
  match s, n with
  | EmptyString, _ => None
  | String c _, O => Some c
  | String _ s', S k => charAt s' k
  end.

(** [/\b\d+\b/g]: a word boundary, the longest run of digits, a word
    boundary.  With fewer digits the position after them lies between two
    digits, which is no boundary, so only the longest run can match. *)
Definition matchNumber (prev : option ascii) (s : string) : option nat :=
  if isWordOpt prev then None
  else match spanLength isDigit s with
       | O => None
       | n => if isWordOpt (charAt s n) then None else Some n
       end.

(** [new Set(arr)]: the distinct elements in order of first insertion. *)
Definition setAdd (acc : list string) (x : string) : list string :=
  if bool_decide (x ∈ acc) then acc else acc ++ [x].

Definition mkSet (l : list string) : list string := fold_left setAdd l [].

Definition has (s : list string) (x : string) : bool := bool_decide (x ∈ s).

(** [a / b] on two sizes with [b] nonzero. *)
Definition ratio (a b : nat) : Q := Z.of_nat a # Pos.of_nat b.

(** [x > y] on numbers. *)
Definition gt (x y : Q) : bool := negb (Qle_bool x y).

(** [arr.sort(cmp)]: the sort is stable, and for a consistent comparator
    its result is the stable ordering, which insertion from the right
    computes: [x] moves behind [y] only when [cmp x y > 0]. *)
Section Sort.
Context {A : Type} (cmp : A -> A -> Q).

Fixpoint insertSorted (x : A) (l : list A) : list A :=
  match l with
  | [] => [x]
  | y :: l' => if gt (cmp x y) 0 then y :: insertSorted x l' else x :: l
  end.

Fixpoint sort (l : list A) : list A :=
  match l with
  | [] => []
  | x :: l' => insertSorted x (sort l')
  end.
End Sort.

(** [arr.slice(0, n)] *)
Definition slice0 {A : Type} (n : nat) (l : list A) : list A := firstn n l.

(** [s.startsWith(sub)] *)
Fixpoint isPrefix (sub s : string) : bool :=
  match sub, s with
  | EmptyString, _ => true
  | String a sub', String b s' => Ascii.eqb a b && isPrefix sub' s'
  | String _ _, EmptyString => false
  end.

(** [s.includes(sub)] *)
Fixpoint includes (s sub : string) : bool :=
  isPrefix sub s
  || match s with
     | EmptyString => false
     | String _ s' => includes s' sub
     end.

Fixpoint dropChars (n : nat) (s : string) : string :=
  match n, s with
  | S k, String _ s' => dropChars k s'
  | _, _ => s
  end.

(** [s.replace(pat, rep)] for a string pattern: the first occurrence only. *)
Fixpoint replaceFirst (pat rep s : string) : string :=
  if isPrefix pat s then rep +:+ dropChars (String.length pat) s
  else match s with
       | EmptyString => EmptyString
       | String c s' => String c (replaceFirst pat rep s')
       end.

(** [s.split(/sep+/)]: a run of separators splits once; [inRun] tells
    that the previous character was a separator. *)
Fixpoint splitRuns (sep : ascii -> bool) (inRun : bool) (s : string) : list string :=
  match s with
  | EmptyString => [EmptyString]
  | String c s' =>
      if sep c then
        if inRun then splitRuns sep true s'
        else EmptyString :: splitRuns sep true s'
      else match splitRuns sep false s' with
           | t :: ts => String c t :: ts
           | [] => [String c EmptyString]
           end
  end.

(** [arr.pop()] on an array that is not modified afterwards: its last
    element, [undefined] on the empty array. *)
Definition pop (l : list string) : option string := last l.

(** A number as a division of two sizes can produce it: a finite value,
    or one of the two results of a division by zero. *)
Inductive number :=
| Finite (q : Q)
| NaN
| Infinity.

(** [a / b] on two sizes: [0 / 0] is [NaN], [a / 0] is [Infinity] for a
    positive [a]. *)
Definition divide (a b : nat) : number :=
  match b, a with
  | O, O => NaN
  | O, S _ => Infinity
  | S _, _ => Finite (ratio a b)
  end.

End JS.

(** ** Data model: snippets and suggestions *)

Record Snippet := {
  id : string;
  title : string;
  code : string;
  language : string;
  description : option string;
  tags : list string;
  createdAt : string
}.

Record AISuggestion := {
  snippet : Snippet;
  reason : string;
  confidence : Q;
  context : string
}.

(** ** The server's suggestion ranker *)

Module Server.

Definition stoplist : list string :=
  ["function"; "const"; "let"; "var"; "if"; "else"; "for"; "while";
   "return"; "class"; "import"; "export"].

Definition tokenizeCode (code : string) : list string :=
  filter (fun token => token ∉ stoplist)
    (filter (fun token => (2 < String.length token)%nat)
       (JS.splitOn (fun c => negb (JS.isWord c)) (JS.toLowerCase code))).

Definition calculateSimilarity (code1 code2 : string) : Q :=
  let tokens1 := tokenizeCode code1 in
  let tokens2 := tokenizeCode code2 in
  let set1 := JS.mkSet tokens1 in
  let set2 := JS.mkSet tokens2 in
  let intersection := JS.mkSet (filter (fun x => JS.has set2 x) set1) in
  let union := JS.mkSet (set1 ++ set2) in
  if (length union =? 0)%nat then 0%Q
  else JS.ratio (length intersection) (length union).

Definition getSimilarityReason (similarity : Q) : string :=
  if JS.gt similarity (7 # 10) then "Very similar implementation"
  else if JS.gt similarity (5 # 10) then "Similar logic and structure"
  else if JS.gt similarity (3 # 10) then "Related code patterns"
  else "Some common elements".

Definition getCodeContext (snippetCode currentCode : string) : string :=
  let snippetTokens := JS.mkSet (tokenizeCode snippetCode) in
  let currentTokens := JS.mkSet (tokenizeCode currentCode) in
  let common := filter (fun token => JS.has currentTokens token) snippetTokens in
  if (0 <? length common)%nat
  then "Common patterns: " +:+ JS.join ", " (JS.slice0 3 common)
  else "Structural similarity detected".

(** The loop of [analyzeSimilarity]: the suggestions pushed, in corpus
    order. *)
Fixpoint collect (currentCode : string) (snippets : list Snippet)
    : list AISuggestion :=
  match snippets with
  | [] => []
  | s :: rest =>
      let similarity := calculateSimilarity currentCode (code s) in
      if JS.gt similarity (3 # 10)
      then {| snippet := s;
              reason := getSimilarityReason similarity;
              confidence := similarity;
              context := getCodeContext (code s) currentCode |}
           :: collect currentCode rest
      else collect currentCode rest
  end.

(** [(a, b) => b.confidence - a.confidence] *)
Definition byConfidenceDesc (a b : AISuggestion) : Q :=
  (confidence b - confidence a)%Q.

Definition analyzeSimilarity (currentCode : string) (snippets : list Snippet)
    : list AISuggestion :=
  JS.slice0 5 (JS.sort byConfidenceDesc (collect currentCode snippets)).

Definition detectLanguage (code : string) : string :=
  if JS.includes code "function" && JS.includes code "=>" then "javascript"
  else if JS.includes code "def " && JS.includes code ":" then "python"
  else if JS.includes code "public class" || JS.includes code "void main" then "java"
  else if JS.includes code "#include" || JS.includes code "using namespace" then "cpp"
  else if JS.includes code "func " && JS.includes code "package" then "go"
  else if JS.includes code "<?php" then "php"
  else "unknown".

(** The response of [POST /api/ai/analyze], given the [code] field of the
    request body ([None] when it is missing) and the snippets read from the
    collection. *)
Record Analysis := {
  totalSnippets : nat;
  relevantMatches : nat;
  detected : string
}.

Inductive Response :=
| BadRequest (error : string)
| Ok (suggestions : list AISuggestion) (analysis : Analysis).

Definition analyzeRoute (code : option string) (snippets : list Snippet) : Response :=
  match code with
  | None | Some EmptyString => BadRequest "Code is required"
  | Some currentCode =>
      let suggestions := analyzeSimilarity currentCode snippets in
      Ok suggestions
         {| totalSnippets := length snippets;
            relevantMatches := length suggestions;
            detected := detectLanguage currentCode |}
  end.

(** [calculateSimilarity] with its division as JavaScript evaluates it,
    a zero divisor included. *)
Definition calculateSimilarityNumber (code1 code2 : string) : JS.number :=
  let tokens1 := tokenizeCode code1 in
  let tokens2 := tokenizeCode code2 in
  let set1 := JS.mkSet tokens1 in
  let set2 := JS.mkSet tokens2 in
  let intersection := JS.mkSet (filter (fun x => JS.has set2 x) set1) in
  let union := JS.mkSet (set1 ++ set2) in
  if (length union =? 0)%nat then JS.Finite 0
  else JS.divide (length intersection) (length union).

End Server.

(** ** The desktop renderer's local fallback analysis *)

Module Renderer.

Definition commonTokens : list string :=
  ["function"; "const"; "let"; "var"; "if"; "else"; "for"; "while";
   "return"; "class"; "import"; "export"; "from"].

Definition isCommonToken (token : string) : bool := JS.has commonTokens token.

(** [/[0-9]/g] *)
Definition matchDigit (_ : option ascii) (s : string) : option nat :=
  match s with
  | String c _ => if JS.isDigit c then Some 1 else None
  | EmptyString => None
  end.

Definition tokenizeCode (code : string) : list string :=
  filter (fun token => (1 < String.length token)%nat)
    (map (fun token => JS.replaceAll matchDigit EmptyString token)
       (filter (fun token => (2 < String.length token)%nat
                             ∧ isCommonToken token = false)
          (JS.splitOn (fun c => negb (JS.isWord c)) (JS.toLowerCase code)))).

Definition calculateCodeSimilarity (code1 code2 : string) : Q :=
  let tokens1 := tokenizeCode code1 in
  let tokens2 := tokenizeCode code2 in
  let set1 := JS.mkSet tokens1 in
  let set2 := JS.mkSet tokens2 in
  let intersection := JS.mkSet (filter (fun x => JS.has set2 x) set1) in
  let union := JS.mkSet (set1 ++ set2) in
  if (length union =? 0)%nat then 0%Q
  else JS.ratio (length intersection) (length union).

Definition getSimilarityReason (similarity : Q) : string :=
  if JS.gt similarity (7 # 10) then "Very similar code structure and logic"
  else if JS.gt similarity (5 # 10) then "Similar implementation approach"
  else if JS.gt similarity (3 # 10) then "Related code patterns"
  else "Some common elements".

Definition detectContext (snippetCode currentCode : string) : string :=
  let snippetTokens := tokenizeCode snippetCode in
  let currentTokens := tokenizeCode currentCode in
  let commonPatterns :=
    filter (fun token => token ∈ currentTokens ∧ (3 < String.length token)%nat)
      snippetTokens in
  if (0 <? length commonPatterns)%nat
  then "Uses similar patterns: " +:+ JS.join ", " (JS.slice0 3 commonPatterns)
  else "Similar coding style or structure".

(** The [forEach] of [performLocalAnalysis] over the cached [snippets]. *)
Fixpoint collect (code0 : string) (snippets : list Snippet) : list AISuggestion :=
  match snippets with
  | [] => []
  | s :: rest =>
      let similarity := calculateCodeSimilarity code0 (code s) in
      if JS.gt similarity (3 # 10)
      then {| snippet := s;
              reason := getSimilarityReason similarity;
              confidence := similarity;
              context := detectContext (code s) code0 |}
           :: collect code0 rest
      else collect code0 rest
  end.

Definition byConfidenceDesc (a b : AISuggestion) : Q :=
  (confidence b - confidence a)%Q.

(** What [performLocalAnalysis] stores: the argument of
    [setAiSuggestions] and the argument of [setShowAIPanel]. *)
Record Panel := { aiSuggestions : list AISuggestion; showAIPanel : bool }.

Definition performLocalAnalysis (snippets : list Snippet) (code0 : string) : Panel :=
  let suggestions := JS.sort byConfidenceDesc (collect code0 snippets) in
  {| aiSuggestions := JS.slice0 3 suggestions;
     showAIPanel := (0 <? length suggestions)%nat |}.

(** [handleTagToggle]: the new [tags] of the snippet being edited. *)
Definition handleTagToggle (tags : list string) (tag : string) : list string :=
  if JS.has tags tag then filter (fun t => t <> tag) tags else tags ++ [tag].

(** [filterSnippets]: the argument of [setFilteredSnippets]. *)
Definition matchesQuery (query : string) (s : Snippet) : bool :=
  let q := JS.toLowerCase query in
  JS.includes (JS.toLowerCase (title s)) q
  || JS.includes (JS.toLowerCase (code s)) q
  || match description s with
     | Some d => JS.includes (JS.toLowerCase d) q
     | None => false
     end
  || existsb (fun tag => JS.includes (JS.toLowerCase tag) q) (tags s).

Definition filterSnippets (snippets : list Snippet)
    (query selectedLanguage selectedTag : string) : list Snippet :=
  let filtered1 :=
    if negb (String.eqb query EmptyString)
    then filter (fun s => matchesQuery query s) snippets else snippets in
  let filtered2 :=
    if negb (String.eqb selectedLanguage "all")
    then filter (fun s => language s = selectedLanguage) filtered1 else filtered1 in
  if negb (String.eqb selectedTag "all")
  then filter (fun s => selectedTag ∈ tags s) filtered2 else filtered2.

End Renderer.

(** ** The editor extension's duplicate guard *)

Module Extension.

Definition dquote : ascii := ascii_of_N 34.
Definition squote : ascii := ascii_of_N 39.
Definition newline : ascii := ascii_of_N 10.

(** [ToInt32]: the result of [<<] and [&]. *)
Definition toInt32 (z : Z) : Z :=
  let m := (z mod 2 ^ 32)%Z in
  if (m <? 2 ^ 31)%Z then m else (m - 2 ^ 32)%Z.

(** One digit of [Number.prototype.toString(36)]. *)
Definition digit36 (d : Z) : ascii :=
  if (d <? 10)%Z then ascii_of_N (Z.to_N (48 + d)) else ascii_of_N (Z.to_N (87 + d)).

(** The digits of a non-negative integer in base 36, most significant
    first; [fuel] bounds the number of digits. *)
Fixpoint radix36 (fuel : nat) (n : Z) (acc : string) : string :=
  match fuel with
  | O => acc
  | S f =>
      let acc' := String (digit36 (n mod 36)) acc in
      if (n <? 36)%Z then acc' else radix36 f (n / 36) acc'
  end.

(** [n.toString(36)] for an integer [n >= 0]; a number has no more
    digits in base 36 than in base 2. *)
Definition toString36 (n : Z) : string :=
  radix36 (S (Z.to_nat (Z.log2 n))) n EmptyString.

(** The loop of [simpleHash]: [hash = ((hash << 5) - hash) + char],
    then [hash = hash & hash]. *)
Fixpoint hashLoop (hash : Z) (str : string) : Z :=
  match str with
  | EmptyString => hash
  | String c rest =>
      let char := Z.of_N (JS.code c) in
      let hash1 := (toInt32 (hash * 2 ^ 5) - hash + char)%Z in
      hashLoop (toInt32 hash1) rest
  end.

Definition simpleHash (str : string) : string :=
  toString36 (Z.abs (hashLoop 0 str)).

(** The replacement chain shared by [generateCodeHash] and the
    [normalizeCode] of [calculateCodeSimilarity]; they differ in what a
    run of whitespace becomes. *)
Definition stripComments (code : string) : string :=
  JS.replaceAll JS.matchBlockComment EmptyString
    (JS.replaceAll JS.matchLineComment EmptyString (JS.toLowerCase code)).

Definition normalizeLiterals (s : string) : string :=
  JS.replaceAll JS.matchNumber "0"
    (JS.replaceAll (JS.matchQuoted squote) (String squote (String squote EmptyString))
       (JS.replaceAll (JS.matchQuoted dquote) (String dquote (String dquote EmptyString)) s)).

Definition hashNormalized (code : string) : string :=
  normalizeLiterals (JS.replaceAll JS.matchSpaces EmptyString (stripComments code)).

Definition generateCodeHash (code : string) : string :=
  simpleHash (hashNormalized code).

Definition normalizeCode (code : string) : string :=
  JS.trim (normalizeLiterals (JS.replaceAll JS.matchSpaces " " (stripComments code))).

Definition codeLines (normalized : string) : list string :=
  JS.mkSet (filter (fun line => (5 < String.length line)%nat)
              (JS.splitOn (Ascii.eqb newline) normalized)).

Definition calculateCodeSimilarity (code1 code2 : string) : Q :=
  let normalized1 := normalizeCode code1 in
  let normalized2 := normalizeCode code2 in
  let lines1 := codeLines normalized1 in
  let lines2 := codeLines normalized2 in
  let intersection := JS.mkSet (filter (fun line => JS.has lines2 line) lines1) in
  let union := JS.mkSet (lines1 ++ lines2) in
  if (length union =? 0)%nat then 0%Q
  else JS.ratio (length intersection) (length union).

(** The loop of [isCodeAlreadyInVault] over the snippet cache. *)
Fixpoint inCache (code0 codeHash : string) (cache : list Snippet) : bool :=
  match cache with
  | [] => false
  | s :: rest =>
      if String.eqb codeHash (generateCodeHash (code s)) then true
      else if JS.gt (calculateCodeSimilarity code0 (code s)) (8 # 10) then true
      else inCache code0 codeHash rest
  end.

(** [server] is the outcome of the request to [/api/ai/analyze]: the
    suggestions of the response, or [None] when the request fails. *)
Definition isCodeAlreadyInVault (code0 : string) (cache : list Snippet)
    (server : option (list AISuggestion)) : bool :=
  let codeHash := generateCodeHash code0 in
  if inCache code0 codeHash cache then true
  else match server with
       | Some suggestions =>
           if existsb (fun s => JS.gt (confidence s) (8 # 10)) suggestions
           then true else false
       | None => false
       end.

(** *** Module state and the event loop *)

Record State := {
  now : Z;                              (* the clock, in milliseconds *)
  recentlyProcessed : gset string;
  timers : list (Z * string);           (* pending callbacks: due time, hash to delete *)
  existingSnippetsCache : list Snippet
}.

Definition initial : State :=
  {| now := 0; recentlyProcessed := ∅; timers := []; existingSnippetsCache := [] |}.

Definition isDuplicateCode (st : State) (codeOrHash : string) : bool :=
  bool_decide (codeOrHash ∈ recentlyProcessed st).

Inductive Outcome :=
| SkippedInVault          (* "code already exists in vault" *)
| SkippedRecent           (* "duplicate code (recently processed)", before saving *)
| SkippedRecentlyCaptured (* "This code was recently captured!", inside the save *)
| Sent (code0 : string).  (* the snippet is posted to the vault *)

(** [saveSnippetToVault] up to its request: the fingerprint check, the
    insertion and the [setTimeout] run without interruption. *)
Definition saveSnippetToVault (code0 : string) (st : State) : State * Outcome :=
  let codeHash := generateCodeHash code0 in
  if isDuplicateCode st codeHash then (st, SkippedRecentlyCaptured)
  else
    ({| now := now st;
        recentlyProcessed := {[codeHash]} ∪ recentlyProcessed st;
        timers := timers st ++ [((now st + 60000)%Z, codeHash)];
        existingSnippetsCache := existingSnippetsCache st |},
     Sent code0).

(** [processCodeCapture]: [vault] is the verdict of the awaited
    [isCodeAlreadyInVault]; the rest runs in the state [st] in which the
    function resumes. *)
Definition processCodeCapture (code0 : string) (vault : bool) (st : State)
    : State * Outcome :=
  if vault then (st, SkippedInVault)
  else if negb (isDuplicateCode st code0) then saveSnippetToVault code0 st
  else (st, SkippedRecent).

(** What can happen between two turns of the event loop. *)
Inductive Event :=
| Tick (d : Z)              (* time passes *)
| Fire (i : nat)            (* the [i]-th pending callback runs *)
| Save (code0 : string)     (* [saveSnippetToVault] is entered *)
| SetCache (cache : list Snippet). (* a response replaces or extends the cache *)

Definition step (e : Event) (st : State) : option State :=
  match e with
  | Tick d =>
      if (0 <=? d)%Z
      then Some {| now := (now st + d)%Z;
                   recentlyProcessed := recentlyProcessed st;
                   timers := timers st;
                   existingSnippetsCache := existingSnippetsCache st |}
      else None
  | Fire i =>
      match timers st !! i with
      | Some (due, codeHash) =>
          if (due <=? now st)%Z
          then Some {| now := now st;
                       recentlyProcessed := recentlyProcessed st ∖ {[codeHash]};
                       timers := delete i (timers st);
                       existingSnippetsCache := existingSnippetsCache st |}
          else None
      | None => None
      end
  | Save code0 => Some (fst (saveSnippetToVault code0 st))
  | SetCache cache =>
      Some {| now := now st;
              recentlyProcessed := recentlyProcessed st;
              timers := timers st;
              existingSnippetsCache := cache |}
  end.

Fixpoint run (evs : list Event) (st : State) : option State :=
  match evs with
  | [] => Some st
  | e :: rest =>
      match step e st with
      | Some st' => run rest st'
      | None => None
      end
  end.

(** [getFileName], from the [fileName] of the document. *)
Definition getFileName (fileName : string) : string :=
  let name :=
    match JS.pop (JS.splitOn (Ascii.eqb "/") fileName) with
    | Some seg => JS.pop (JS.splitOn (Ascii.eqb "\") seg)
    | None => None
    end in
  match name with
  | None | Some EmptyString => "untitled"
  | Some n => n
  end.

Definition getFileNameFromTitle (title0 : string) : string :=
  JS.replaceFirst "Selection - " EmptyString
    (JS.replaceFirst "File: " EmptyString title0).

(** The own properties of [languageMap]. *)
Definition languageMap : list (string * string) :=
  [("javascript", "javascript"); ("typescript", "typescript");
   ("javascriptreact", "javascript"); ("typescriptreact", "typescript");
   ("python", "python"); ("java", "java"); ("cpp", "cpp"); ("c", "c");
   ("csharp", "csharp"); ("php", "php"); ("ruby", "ruby"); ("go", "go");
   ("rust", "rust"); ("html", "html"); ("css", "css"); ("json", "json");
   ("xml", "xml"); ("yaml", "yaml"); ("markdown", "markdown"); ("sql", "sql");
   ("shellscript", "shell")].

(** The property names an object literal inherits from [Object.prototype];
    looking one of them up yields a function or an object, not a string. *)
Definition inheritedKeys : list string :=
  ["constructor"; "hasOwnProperty"; "isPrototypeOf"; "propertyIsEnumerable";
   "toLocaleString"; "toString"; "valueOf"; "__proto__";
   "__defineGetter__"; "__defineSetter__"; "__lookupGetter__"; "__lookupSetter__"].

Fixpoint assoc (key : string) (l : list (string * string)) : option string :=
  match l with
  | [] => None
  | (k, v) :: rest => if String.eqb key k then Some v else assoc key rest
  end.

(** [languageMap[languageId] || languageId]: [None] stands for the
    inherited value that is returned for a key of [inheritedKeys]. *)
Definition mapLanguageId (languageId : string) : option string :=
  match assoc languageId languageMap with
  | Some v => Some v
  | None => if JS.has inheritedKeys languageId then None else Some languageId
  end.

Definition similarTokens (code0 : string) : list string :=
  filter (fun t => (2 < String.length t)%nat)
    (JS.splitRuns (fun c => negb (JS.isWord c)) false (JS.toLowerCase code0)).

Definition isCodeSimilar (code1 code2 : string) : bool :=
  let tokens1 := similarTokens code1 in
  let tokens2 := similarTokens code2 in
  let commonTokens := filter (fun token => token ∈ tokens2) tokens1 in
  (3 <? length commonTokens)%nat.

(** [captureSelectionOnly] and [captureEntireFile] from the text they
    read on: [None] when the text is not captured at all. [vault] and [st]
    are as for [processCodeCapture]. *)
Definition captureSelectionOnly (codeToCapture : string) (vault : bool) (st : State)
    : option (State * Outcome) :=
  if negb (String.eqb codeToCapture EmptyString)
     && (20 <? String.length codeToCapture)%nat
  then Some (processCodeCapture codeToCapture vault st)
  else None.

Definition captureEntireFile (codeToCapture : string) (vault : bool) (st : State)
    : option (State * Outcome) :=
  if negb (String.eqb codeToCapture EmptyString)
     && (100 <? String.length codeToCapture)%nat
  then Some (processCodeCapture codeToCapture vault st)
  else None.

End Extension.

(** A snippet with the given id and code, for the examples. *)
Definition mkSnippet (i c : string) : Snippet :=
  {| id := i; title := i; code := c; language := "javascript";
     description := None; tags := []; createdAt := "2024-01-01T00:00:00.000Z" |}.

#[global] Instance Qeq_decision (x y : Q) : Decision (x == y)%Q := Qeq_dec x y.
#[global] Instance Qlt_decision (x y : Q) : Decision (x < y)%Q.
Proof. destruct (Qlt_le_dec x y); [left | right]; auto using Qle_not_lt. Defined.

(** The suggestions the local fallback puts on the panel. *)
Definition shown (snippets : list Snippet) (code0 : string) : list AISuggestion :=
  Renderer.aiSuggestions (Renderer.performLocalAnalysis snippets code0).

(** Descending order of confidence. *)
Definition descending (a b : AISuggestion) : Prop :=
  (confidence b <= confidence a)%Q.

(** All characters of a string satisfy [p]. *)
Fixpoint allChars (p : ascii -> bool) (s : string) : bool :=
  match s with
  | EmptyString => true
  | String c s' => p c && allChars p s'
  end.

Definition notNewline (c : ascii) : bool := negb (Ascii.eqb Extension.newline c).

(** *** The near-duplicate stage as the specification words it

    "Normalize both candidate and snippet the same way as stage 1 but do
    NOT collapse newlines, split into lines, keep lines longer than 5
    characters, take the Jaccard similarity of the two line sets": the
    definitions of the extension with one change, a run of whitespace ends
    at a newline. *)

Module Spec.

Definition isInlineSpace (c : ascii) : bool := JS.isSpace c && notNewline c.

Definition matchInlineSpaces (_ : option ascii) (s : string) : option nat :=
  match JS.spanLength isInlineSpace s with
  | O => None
  | n => Some n
  end.

Definition normalizeCode (code : string) : string :=
  JS.trim (Extension.normalizeLiterals
             (JS.replaceAll matchInlineSpaces " " (Extension.stripComments code))).

Definition lineSimilarity (code1 code2 : string) : Q :=
  let lines1 := Extension.codeLines (normalizeCode code1) in
  let lines2 := Extension.codeLines (normalizeCode code2) in
  let intersection := JS.mkSet (filter (fun line => JS.has lines2 line) lines1) in
  let union := JS.mkSet (lines1 ++ lines2) in
  if (length union =? 0)%nat then 0%Q
  else JS.ratio (length intersection) (length union).

End Spec.

(** Ten lines of code, and the first nine of them. *)
Definition tenLines : string :=
"const alpha = load(config);
const beta = parse(alpha);
const gamma = check(beta);
const delta = merge(gamma);
const epsilon = trim(delta);
const zeta = sort(epsilon);
const eta = group(zeta);
const theta = render(eta);
const iota = publish(theta);
const kappa = archive(iota, lambda, sigma, omega, upsilon);".

Definition nineLines : string :=
"const alpha = load(config);
const beta = parse(alpha);
const gamma = check(beta);
const delta = merge(gamma);
const epsilon = trim(delta);
const zeta = sort(epsilon);
const eta = group(zeta);
const theta = render(eta);
const iota = publish(theta);".

(** A cache that holds [nineLines] only. *)
Definition nineLinesCache : list Snippet := [mkSnippet "1" nineLines].

(** The fingerprint of a candidate, and the due time of the callback that
    [saveSnippetToVault] sets when it runs in state [st]. *)
Definition fingerprint (code0 : string) : string := Extension.generateCodeHash code0.
Definition dueAfter (st : Extension.State) : Z := (Extension.now st + 60000)%Z.

(** The invariant of the recently-processed set: a fingerprint is in the
    set exactly while one callback that will delete it is pending. *)
Definition wellTimed (st : Extension.State) : Prop :=
  NoDup (Extension.timers st).*2
  ∧ forall h, h ∈ Extension.recentlyProcessed st <-> h ∈ (Extension.timers st).*2.

(** What holds of a fingerprint [h] from its insertion on, where [expiry]
    is the due time of the callback set with it: no callback for [h] is due
    earlier, and [h] is in the set while the clock is before [expiry]. *)
Definition inWindow (h : string) (expiry : Z) (st : Extension.State) : Prop :=
  wellTimed st
  ∧ (expiry - 60000 <= Extension.now st)%Z
  ∧ (forall due, (due, h) ∈ Extension.timers st -> (expiry <= due)%Z)
  ∧ ((Extension.now st < expiry)%Z -> h ∈ Extension.recentlyProcessed st).

(** Every element of the recently-processed set is a fingerprint. *)
Definition holdsFingerprints (st : Extension.State) : Prop :=
  forall h, h ∈ Extension.recentlyProcessed st ->
            exists c, h = Extension.generateCodeHash c.

(** The Jaccard quotient that the three similarity functions compute
    from their two token (or line) lists. *)
Definition jaccard (tokens1 tokens2 : list string) : Q :=
  let set1 := JS.mkSet tokens1 in
  let set2 := JS.mkSet tokens2 in
  let intersection := JS.mkSet (filter (fun x => JS.has set2 x) set1) in
  let union := JS.mkSet (set1 ++ set2) in
  if (length union =? 0)%nat then 0%Q
  else JS.ratio (length intersection) (length union).

(** The hash of [simpleHash] before wrapping: string hashing with
    multiplier 31. *)
Fixpoint poly31 (hash : Z) (str : string) : Z :=
  match str with
  | EmptyString => hash
  | String c rest => poly31 (31 * hash + Z.of_N (JS.code c))%Z rest
  end.

Definition isBase36 (c : ascii) : bool := JS.isDigit c || JS.between 97 122 c.

Definition isSave (e : Extension.Event) : bool :=
  match e with Extension.Save _ => true | _ => false end.

Definition countSaves (evs : list Extension.Event) : nat :=
  length (filter (fun e => isSave e) evs).

(** A lower-case word character: [a-z0-9_]. *)
Definition isLowerWord (c : ascii) : bool := JS.isWord c && negb (JS.between 65 90 c).

(** A lower-case word character that is no digit: [a-z_]. *)
Definition isLowerLetter (c : ascii) : bool := isLowerWord c && negb (JS.isDigit c).

(** No slash and no backslash. *)
Definition notSeparator (c : ascii) : bool :=
  negb (Ascii.eqb "/" c) && negb (Ascii.eqb "\" c).

(** * Properties *)

(** ** The definitions on small inputs *)

Example tokenize_drops_keywords_and_short_tokens :
  Server.tokenizeCode "function foo() { return x + y; }" = ["foo"].
Proof. reflexivity. Qed.

Example tokenize_local_strips_digits :
  Renderer.tokenizeCode "function foo1() { return x + y22; from abc123 a1b2 }"
  = ["foo"; "abc"; "ab"].
Proof. reflexivity. Qed.

Example backslash_is_one_character : String.length "\" = 1%nat ∧ JS.code "\" = 92%N.
Proof. split; reflexivity. Qed.

Example simpleHash_abc : Extension.simpleHash "abc" = "22ci".
Proof. reflexivity. Qed.

Example normalizeCode_sample :
  Extension.normalizeCode
"const  A = 'it''s' + 12; // note
/* block
 comment */ let b1 = 3 + x2 + 44_5 + 7a;"
  = "const a = '''' + 0; let b1 = 0 + x2 + 44_5 + 7a;".
Proof. reflexivity. Qed.

Example hashNormalized_sample :
  Extension.hashNormalized
"if (A /* why */ == 'x\'y') { // done
  return 10 + n1;
}"
  = "if(a==''){return10+n1;}".
Proof. reflexivity. Qed.

Example rank_orders_and_keeps_ties :
  (fun a => (id (snippet a), confidence a, reason a))
    <$> Server.analyzeSimilarity "fetch json array"
          [mkSnippet "1" "fetch header json"; mkSnippet "2" "fetch json array more";
           mkSnippet "3" "nothing"; mkSnippet "4" "fetch(json).array";
           mkSnippet "5" "array json fetcher fetch"]
  = [("4", 3 # 3, "Very similar implementation");
     ("2", 3 # 4, "Very similar implementation");
     ("5", 3 # 4, "Very similar implementation");
     ("1", 2 # 4, "Related code patterns")].
Proof. reflexivity. Qed.

Example rank_truncates_to_five :
  (fun a => id (snippet a))
    <$> Server.analyzeSimilarity "alpha beta"
          [mkSnippet "1" "alpha beta gamma"; mkSnippet "2" "alpha beta";
           mkSnippet "3" "alpha"; mkSnippet "4" "beta alpha";
           mkSnippet "5" "beta"; mkSnippet "6" "alpha beta";
           mkSnippet "7" "gamma"]
  = ["2"; "4"; "6"; "1"; "3"].
Proof. reflexivity. Qed.

(** ** Numbers *)

Lemma gt_spec (x y : Q) : JS.gt x y = true <-> (y < x)%Q.
Proof.
  unfold JS.gt. rewrite negb_true_iff, <- not_true_iff_false, Qle_bool_iff.
  split; [apply Qnot_le_lt | apply Qlt_not_le].
Qed.

Lemma gt_false (x y : Q) : JS.gt x y = false <-> (x <= y)%Q.
Proof.
  unfold JS.gt. rewrite negb_false_iff. apply Qle_bool_iff.
Qed.

Lemma gt_diff (x y : Q) : JS.gt (y - x) 0 = true <-> (x < y)%Q.
Proof.
  rewrite gt_spec. symmetry. apply Qlt_minus_iff.
Qed.

(** ** Sorting *)

Section SortFacts.
Context {A : Type} (key : A -> Q) (cmp : A -> A -> Q).
Hypothesis cmp_key : forall a b, JS.gt (cmp a b) 0 = true <-> (key a < key b)%Q.

Local Abbreviation ge := (fun a b : A => (key b <= key a)%Q).

Lemma insertSorted_perm x l : JS.insertSorted cmp x l ≡ₚ x :: l.
Proof.
  induction l as [|y l IH]; simpl; [done|].
  destruct (JS.gt (cmp x y) 0); [|done].
  rewrite IH. apply Permutation_swap.
Qed.

Lemma sort_perm l : JS.sort cmp l ≡ₚ l.
Proof.
  induction l as [|x l IH]; simpl; [done|].
  rewrite insertSorted_perm. by rewrite IH.
Qed.

Lemma insertSorted_sorted x l :
  StronglySorted ge l -> StronglySorted ge (JS.insertSorted cmp x l).
Proof.
  induction 1 as [|y l Hl IH Hy]; simpl.
  - repeat constructor.
  - destruct (JS.gt (cmp x y) 0) eqn:E.
    + apply cmp_key in E. constructor; [done|].
      rewrite insertSorted_perm. constructor; [|done].
      by apply Qlt_le_weak.
    + assert (key y <= key x)%Q as Hxy.
      { apply Qnot_lt_le. intros Hlt. apply cmp_key in Hlt. congruence. }
      constructor; [by constructor|].
      constructor; [done|].
      eapply Forall_impl; [exact Hy|].
      intros z Hz. simpl in *. by eapply Qle_trans.
Qed.

Lemma sort_sorted l : StronglySorted ge (JS.sort cmp l).
Proof.
  induction l; simpl; [constructor | by apply insertSorted_sorted].
Qed.

(** Stability: the elements of one key keep their relative order. *)
Lemma insertSorted_stable c x l :
  filter (fun a => key a == c)%Q (JS.insertSorted cmp x l)
  = filter (fun a => key a == c)%Q (x :: l).
Proof.
  induction l as [|y l IH]; simpl; [done|].
  destruct (JS.gt (cmp x y) 0) eqn:E; [|done].
  apply cmp_key in E.
  rewrite (filter_cons _ y), IH, !(filter_cons _ x), !(filter_cons _ y).
  repeat case_decide; try done.
  exfalso. apply (Qlt_irrefl (key x)).
  eapply Qlt_le_trans; [exact E|].
  apply Qle_lteq. right. by etransitivity; [|symmetry].
Qed.

Lemma sort_stable c l :
  filter (fun a => key a == c)%Q (JS.sort cmp l)
  = filter (fun a => key a == c)%Q l.
Proof.
  induction l as [|x l IH]; simpl; [done|].
  rewrite insertSorted_stable, !filter_cons, IH. done.
Qed.

Lemma take_sorted n l : StronglySorted ge l -> StronglySorted ge (take n l).
Proof.
  intros Hl. revert n. induction Hl as [|x l Hl IH Hx]; intros [|n]; simpl;
    try constructor; [apply IH|].
  eapply Forall_take in Hx. exact Hx.
Qed.
End SortFacts.

(** ** The ranker *)

Lemma byConfidenceDesc_key (a b : AISuggestion) :
  JS.gt (Server.byConfidenceDesc a b) 0 = true <-> (confidence a < confidence b)%Q.
Proof. apply gt_diff. Qed.

Lemma local_byConfidenceDesc_key (a b : AISuggestion) :
  JS.gt (Renderer.byConfidenceDesc a b) 0 = true <-> (confidence a < confidence b)%Q.
Proof. apply gt_diff. Qed.

(** What the loop pushes: one suggestion per snippet above the threshold,
    in corpus order, carrying the snippet's similarity and its band. *)
Lemma collect_snippets q corpus :
  snippet <$> Server.collect q corpus
  = filter (fun s => 3 # 10 < Server.calculateSimilarity q (code s))%Q corpus.
Proof.
  induction corpus as [|s corpus IH]; [done|].
  rewrite filter_cons. cbn [Server.collect].
  destruct (JS.gt _ _) eqn:E.
  - apply gt_spec in E. rewrite decide_True by done. rewrite fmap_cons. by rewrite IH.
  - apply gt_false in E. rewrite decide_False; [done|]. by apply Qle_not_lt.
Qed.

Lemma collect_each q corpus :
  Forall (fun a =>
            snippet a ∈ corpus
            ∧ confidence a = Server.calculateSimilarity q (code (snippet a))
            ∧ (3 # 10 < confidence a)%Q
            ∧ reason a = Server.getSimilarityReason (confidence a)
            ∧ context a = Server.getCodeContext (code (snippet a)) q)
         (Server.collect q corpus).
Proof.
  induction corpus as [|s corpus IH]; simpl; [constructor|].
  assert (Forall (fun a =>
            snippet a ∈ s :: corpus
            ∧ confidence a = Server.calculateSimilarity q (code (snippet a))
            ∧ (3 # 10 < confidence a)%Q
            ∧ reason a = Server.getSimilarityReason (confidence a)
            ∧ context a = Server.getCodeContext (code (snippet a)) q)
         (Server.collect q corpus)) as IH'.
  { eapply Forall_impl; [exact IH|]. intros a (? & ?). split; [by right|done]. }
  destruct (JS.gt _ _) eqn:E; [|done].
  constructor; [|done]. simpl. apply gt_spec in E.
  repeat split; try done. by left.
Qed.

Lemma analyzeSimilarity_subset q corpus a :
  a ∈ Server.analyzeSimilarity q corpus -> a ∈ Server.collect q corpus.
Proof.
  unfold Server.analyzeSimilarity, JS.slice0. intros Ha.
  apply subseteq_take in Ha.
  by rewrite sort_perm in Ha.
Qed.

(** C2: the ranker returns at most 5 suggestions, and each of them is a
    corpus snippet whose similarity to the query, which is its confidence,
    is strictly above 0.3. *)
Theorem rank_bounded_above_threshold (q : string) (corpus : list Snippet) :
  (length (Server.analyzeSimilarity q corpus) <= 5)%nat
  ∧ Forall (fun a =>
              (3 # 10 < confidence a)%Q
              ∧ snippet a ∈ corpus
              ∧ confidence a = Server.calculateSimilarity q (code (snippet a)))
           (Server.analyzeSimilarity q corpus).
Proof.
  split.
  - unfold Server.analyzeSimilarity, JS.slice0. rewrite length_take. lia.
  - apply Forall_forall. intros a Ha%analyzeSimilarity_subset.
    pose proof (collect_each q corpus) as H.
    rewrite Forall_forall in H. destruct (H a Ha) as (? & ? & ? & _). done.
Qed.

Lemma collect_by_confidence q corpus c :
  snippet <$> filter (fun a => confidence a == c)%Q (Server.collect q corpus)
  = filter (fun s => (3 # 10 < Server.calculateSimilarity q (code s))%Q
                     ∧ (Server.calculateSimilarity q (code s) == c)%Q) corpus.
Proof.
  induction corpus as [|s corpus IH]; [done|].
  rewrite (filter_cons _ s corpus). cbn [Server.collect].
  destruct (JS.gt _ _) eqn:E.
  - apply gt_spec in E. rewrite filter_cons. cbn [confidence].
    destruct (decide (Server.calculateSimilarity q (code s) == c)%Q) as [Hc|Hc].
    + rewrite decide_True by done. rewrite fmap_cons. by rewrite IH.
    + rewrite decide_False by tauto. done.
  - apply gt_false in E. rewrite decide_False; [done|].
    intros [Hlt _]. by apply Qle_not_lt in E.
Qed.

Lemma filter_take_prefix {A} (P : A -> Prop) `{!forall x, Decision (P x)} n (l : list A) :
  filter P (take n l) `prefix_of` filter P l.
Proof.
  rewrite <- (take_drop n l) at 2. rewrite filter_app. by apply prefix_app_r.
Qed.

Lemma fmap_prefix {A B} (f : A -> B) (l1 l2 : list A) :
  l1 `prefix_of` l2 -> (f <$> l1) `prefix_of` (f <$> l2).
Proof. intros [k ->]. exists (f <$> k). apply fmap_app. Qed.

(** C3: the ranker's output is the first 5 elements of a list that holds
    exactly the retained suggestions, in descending order of confidence;
    within one confidence value the suggestions follow the corpus order,
    in the sorted list and so in its truncation. *)
Theorem rank_sorted_stable (q : string) (corpus : list Snippet) :
  exists sorted : list AISuggestion,
    Server.analyzeSimilarity q corpus = take 5 sorted
    ∧ sorted ≡ₚ Server.collect q corpus
    ∧ StronglySorted descending sorted
    ∧ StronglySorted descending (Server.analyzeSimilarity q corpus)
    ∧ (forall c : Q,
         snippet <$> filter (fun a => confidence a == c)%Q sorted
         = filter (fun s => (3 # 10 < Server.calculateSimilarity q (code s))%Q
                            ∧ (Server.calculateSimilarity q (code s) == c)%Q) corpus)
    ∧ (forall c : Q,
         (snippet <$> filter (fun a => confidence a == c)%Q
                        (Server.analyzeSimilarity q corpus))
         `prefix_of`
         filter (fun s => (3 # 10 < Server.calculateSimilarity q (code s))%Q
                          ∧ (Server.calculateSimilarity q (code s) == c)%Q) corpus).
Proof.
  exists (JS.sort Server.byConfidenceDesc (Server.collect q corpus)).
  pose proof (sort_sorted confidence _ byConfidenceDesc_key (Server.collect q corpus))
    as Hsorted.
  assert (forall c : Q,
    snippet <$> filter (fun a => confidence a == c)%Q
                  (JS.sort Server.byConfidenceDesc (Server.collect q corpus))
    = filter (fun s => (3 # 10 < Server.calculateSimilarity q (code s))%Q
                       ∧ (Server.calculateSimilarity q (code s) == c)%Q) corpus)
    as Hstable.
  { intros c. rewrite (sort_stable confidence _ byConfidenceDesc_key).
    apply collect_by_confidence. }
  repeat split.
  - apply sort_perm.
  - exact Hsorted.
  - by apply (take_sorted confidence).
  - exact Hstable.
  - intros c. rewrite <- Hstable. apply fmap_prefix, filter_take_prefix.
Qed.

(** The band of a similarity is the else branch exactly at 0.3 and below. *)
Lemma getSimilarityReason_else (x : Q) :
  Server.getSimilarityReason x = "Some common elements" <-> (x <= 3 # 10)%Q.
Proof.
  unfold Server.getSimilarityReason.
  destruct (JS.gt x (7 # 10)) eqn:E7; [|destruct (JS.gt x (5 # 10)) eqn:E5;
    [|destruct (JS.gt x (3 # 10)) eqn:E3]].
  - apply gt_spec in E7. split; [discriminate|]. intros Hx. exfalso.
    apply (Qlt_irrefl x). eapply Qle_lt_trans; [exact Hx|].
    eapply Qlt_trans; [|exact E7]. reflexivity.
  - apply gt_spec in E5. split; [discriminate|]. intros Hx. exfalso.
    apply (Qlt_irrefl x). eapply Qle_lt_trans; [exact Hx|].
    eapply Qlt_trans; [|exact E5]. reflexivity.
  - apply gt_spec in E3. split; [discriminate|]. intros Hx. exfalso.
    apply (Qlt_irrefl x). by eapply Qle_lt_trans.
  - apply gt_false in E3. done.
Qed.

(** C6: no suggestion the ranker returns carries the label of the else
    branch: each carries one of the three bands above 0.3, the band of its
    confidence. *)
Theorem rank_never_some_common_elements (q : string) (corpus : list Snippet) :
  Forall (fun a =>
            reason a <> "Some common elements"
            ∧ reason a = Server.getSimilarityReason (confidence a)
            ∧ (reason a = "Very similar implementation"
               ∨ reason a = "Similar logic and structure"
               ∨ reason a = "Related code patterns"))
         (Server.analyzeSimilarity q corpus).
Proof.
  apply Forall_forall. intros a Ha%analyzeSimilarity_subset.
  pose proof (collect_each q corpus) as H.
  rewrite Forall_forall in H. destruct (H a Ha) as (_ & _ & Hc & Hr & _).
  assert (reason a <> "Some common elements") as Hne.
  { rewrite Hr, getSimilarityReason_else. by apply Qlt_not_le. }
  repeat split; [exact Hne|exact Hr|].
  revert Hne. rewrite Hr. unfold Server.getSimilarityReason.
  repeat case_match; auto. congruence.
Qed.

(** ** The local fallback *)

Lemma local_collect_each code0 snippets :
  Forall (fun a =>
            snippet a ∈ snippets
            ∧ confidence a = Renderer.calculateCodeSimilarity code0 (code (snippet a))
            ∧ (3 # 10 < confidence a)%Q)
         (Renderer.collect code0 snippets).
Proof.
  induction snippets as [|s snippets IH]; simpl; [constructor|].
  assert (Forall (fun a =>
            snippet a ∈ s :: snippets
            ∧ confidence a = Renderer.calculateCodeSimilarity code0 (code (snippet a))
            ∧ (3 # 10 < confidence a)%Q)
         (Renderer.collect code0 snippets)) as IH'.
  { eapply Forall_impl; [exact IH|]. intros a (? & ?). split; [by right|done]. }
  destruct (JS.gt _ _) eqn:E; [|done].
  constructor; [|done]. simpl. apply gt_spec in E.
  repeat split; try done. by left.
Qed.

(** C10: the local fallback shows at most 3 suggestions: the first 3 of
    the retained suggestions sorted by descending confidence, each a cached
    snippet whose similarity to the code, its confidence, is above 0.3. *)
Theorem local_analysis_top3 (snippets : list Snippet) (code0 : string) :
  (length (shown snippets code0) <= 3)%nat
  ∧ Forall (fun a =>
              (3 # 10 < confidence a)%Q
              ∧ snippet a ∈ snippets
              ∧ confidence a
                = Renderer.calculateCodeSimilarity code0 (code (snippet a)))
           (shown snippets code0)
  ∧ StronglySorted descending (shown snippets code0)
  ∧ exists sorted : list AISuggestion,
      shown snippets code0 = take 3 sorted
      ∧ sorted ≡ₚ Renderer.collect code0 snippets
      ∧ StronglySorted descending sorted.
Proof.
  unfold shown. cbn [Renderer.performLocalAnalysis Renderer.aiSuggestions].
  unfold JS.slice0.
  pose proof (sort_sorted confidence _ local_byConfidenceDesc_key
                (Renderer.collect code0 snippets)) as Hsorted.
  repeat split.
  - rewrite length_take. lia.
  - apply Forall_forall. intros a Ha.
    apply subseteq_take in Ha. rewrite sort_perm in Ha.
    pose proof (local_collect_each code0 snippets) as H.
    rewrite Forall_forall in H. destruct (H a Ha) as (? & ? & ?). done.
  - by apply (take_sorted confidence).
  - eexists. repeat split; [apply sort_perm | exact Hsorted].
Qed.

(** ** Sets of tokens *)

Lemma setAdd_nil (y : string) : JS.setAdd [] y = [y].
Proof.
  unfold JS.setAdd. by rewrite bool_decide_eq_false_2 by apply not_elem_of_nil.
Qed.

Lemma setAdd_fold (l acc : list string) :
  fold_left JS.setAdd l acc = acc ++ filter (fun x => x ∉ acc) (JS.mkSet l).
Proof.
  unfold JS.mkSet. revert acc. induction l as [|y l IH]; intros acc; simpl.
  - by rewrite app_nil_r.
  - rewrite setAdd_nil, (IH [y]), (IH (JS.setAdd acc y)).
    simpl. rewrite filter_cons, list_filter_filter.
    unfold JS.setAdd. case_bool_decide as Hy.
    + rewrite decide_False by tauto. f_equal.
      apply list_filter_iff. intros x. rewrite list_elem_of_singleton.
      split; [|tauto]. intros Hx. split; [done|]. congruence.
    + rewrite decide_True by done. rewrite <- app_assoc. simpl. do 2 f_equal.
      apply list_filter_iff. intros x.
      rewrite not_elem_of_app, list_elem_of_singleton. tauto.
Qed.

(** A set lists its elements in the order of their first occurrence. *)
Lemma mkSet_cons (x : string) (l : list string) :
  JS.mkSet (x :: l) = x :: filter (fun y => y <> x) (JS.mkSet l).
Proof.
  unfold JS.mkSet at 1. simpl. rewrite setAdd_nil, setAdd_fold. simpl. f_equal.
  apply list_filter_iff. intros y. by rewrite list_elem_of_singleton.
Qed.

Lemma mkSet_nil : JS.mkSet [] = [].
Proof. done. Qed.

Lemma elem_of_mkSet (x : string) (l : list string) : x ∈ JS.mkSet l <-> x ∈ l.
Proof.
  induction l as [|y l IH]; [done|].
  rewrite mkSet_cons, !elem_of_cons, list_elem_of_filter, IH.
  destruct (decide (x = y)); tauto.
Qed.

Lemma NoDup_mkSet (l : list string) : NoDup (JS.mkSet l).
Proof.
  induction l as [|y l IH]; [constructor|].
  rewrite mkSet_cons. constructor.
  - rewrite list_elem_of_filter. tauto.
  - by apply NoDup_filter.
Qed.

Lemma mkSet_sublist (l : list string) : JS.mkSet l `sublist_of` l.
Proof.
  induction l as [|y l IH]; [done|].
  rewrite mkSet_cons. apply sublist_skip.
  etransitivity; [apply sublist_filter|done].
Qed.

Lemma mkSet_empty (l : list string) : JS.mkSet l = [] <-> l = [].
Proof.
  destruct l; [done|]. by rewrite mkSet_cons.
Qed.

Lemma has_spec (s : list string) (x : string) : JS.has s x = true <-> x ∈ s.
Proof. unfold JS.has. apply bool_decide_eq_true. Qed.

(** ** The similarity scorer *)

(** The union of two token sets is empty exactly when both inputs tokenize
    to nothing. *)
Lemma union_empty (t1 t2 : list string) :
  JS.mkSet (JS.mkSet t1 ++ JS.mkSet t2) = [] <-> t1 = [] ∧ t2 = [].
Proof.
  rewrite mkSet_empty. split.
  - intros [H1 H2]%app_eq_nil. by rewrite !mkSet_empty in *.
  - by intros [-> ->].
Qed.

Lemma intersection_le_union (s1 s2 : list string) :
  (length (JS.mkSet (filter (fun x => JS.has s2 x) s1))
   <= length (JS.mkSet (s1 ++ s2)))%nat.
Proof.
  apply submseteq_length, NoDup_submseteq; [apply NoDup_mkSet|].
  intros x. rewrite !elem_of_mkSet, list_elem_of_filter, elem_of_app. tauto.
Qed.

(** Whenever the scorer divides, the divisor is positive, and the score
    lies between 0 and 1. *)
Lemma similarity_range (code1 code2 : string) :
  (0 <= Server.calculateSimilarity code1 code2 <= 1)%Q
  ∧ (Server.tokenizeCode code1 ++ Server.tokenizeCode code2 <> [] ->
     let set1 := JS.mkSet (Server.tokenizeCode code1) in
     let set2 := JS.mkSet (Server.tokenizeCode code2) in
     (0 < length (JS.mkSet (set1 ++ set2)))%nat
     ∧ Server.calculateSimilarity code1 code2
       = JS.ratio (length (JS.mkSet (filter (fun x => JS.has set2 x) set1)))
                  (length (JS.mkSet (set1 ++ set2)))).
Proof.
  unfold Server.calculateSimilarity.
  set (set1 := JS.mkSet (Server.tokenizeCode code1)).
  set (set2 := JS.mkSet (Server.tokenizeCode code2)).
  pose proof (intersection_le_union set1 set2) as Hle.
  destruct (length (JS.mkSet (set1 ++ set2))) as [|u] eqn:Hu; simpl.
  - split; [split; discriminate|].
    intros Hne. exfalso. apply Hne.
    apply length_zero_iff_nil, union_empty in Hu as [-> ->]. done.
  - split; [|intros _; split; [lia|done]].
    unfold JS.ratio, Qle. cbn [Qnum Qden].
    rewrite <- Pos.of_nat_succ, Zpos_P_of_succ_nat. split; lia.
Qed.

(** The rational score is the value of the score computed with
    JavaScript's division, on every input. *)
Lemma calculateSimilarityNumber_finite (code1 code2 : string) :
  Server.calculateSimilarityNumber code1 code2
  = JS.Finite (Server.calculateSimilarity code1 code2).
Proof.
  unfold Server.calculateSimilarityNumber, Server.calculateSimilarity. cbv zeta.
  by destruct (length (JS.mkSet (_ ++ _))).
Qed.

(** C7: the scorer returns a finite number between 0 and 1 on every pair
    of inputs, never NaN and never Infinity.  When both inputs tokenize to
    nothing the union of the token sets is empty, the quotient of the two
    sizes would be NaN, and the scorer returns 0 without dividing; in every
    other case the divisor is positive. *)
Theorem similarity_empty_union (code1 code2 : string) :
  (exists q, Server.calculateSimilarityNumber code1 code2 = JS.Finite q
             ∧ (0 <= q <= 1)%Q)
  ∧ (Server.tokenizeCode code1 = [] -> Server.tokenizeCode code2 = [] ->
     JS.mkSet (JS.mkSet (Server.tokenizeCode code1)
               ++ JS.mkSet (Server.tokenizeCode code2)) = []
     ∧ JS.divide
         (length (JS.mkSet (filter (fun x => JS.has (JS.mkSet (Server.tokenizeCode code2)) x)
                              (JS.mkSet (Server.tokenizeCode code1)))))
         (length (JS.mkSet (JS.mkSet (Server.tokenizeCode code1)
                            ++ JS.mkSet (Server.tokenizeCode code2))))
       = JS.NaN
     ∧ Server.calculateSimilarityNumber code1 code2 = JS.Finite 0)
  ∧ (Server.tokenizeCode code1 ++ Server.tokenizeCode code2 <> [] ->
     (0 < length (JS.mkSet (JS.mkSet (Server.tokenizeCode code1)
                            ++ JS.mkSet (Server.tokenizeCode code2))))%nat
     ∧ Server.calculateSimilarityNumber code1 code2
       = JS.divide
           (length (JS.mkSet (filter (fun x => JS.has (JS.mkSet (Server.tokenizeCode code2)) x)
                                (JS.mkSet (Server.tokenizeCode code1)))))
           (length (JS.mkSet (JS.mkSet (Server.tokenizeCode code1)
                              ++ JS.mkSet (Server.tokenizeCode code2))))).
Proof.
  split_and!.
  - unfold Server.calculateSimilarityNumber. cbv zeta.
    pose proof (intersection_le_union (JS.mkSet (Server.tokenizeCode code1))
                  (JS.mkSet (Server.tokenizeCode code2))) as Hle.
    destruct (length (JS.mkSet (JS.mkSet (Server.tokenizeCode code1)
                                ++ JS.mkSet (Server.tokenizeCode code2))))
      as [|u]; simpl.
    + exists 0%Q. split; [done|]. split; discriminate.
    + eexists. split; [done|].
      unfold JS.ratio, Qle. cbn [Qnum Qden].
      rewrite <- Pos.of_nat_succ, Zpos_P_of_succ_nat. split; lia.
  - intros H1 H2. unfold Server.calculateSimilarityNumber. rewrite H1, H2. done.
  - intros Hne. unfold Server.calculateSimilarityNumber. cbv zeta.
    destruct (length (JS.mkSet (JS.mkSet (Server.tokenizeCode code1)
                                ++ JS.mkSet (Server.tokenizeCode code2))))
      as [|u] eqn:Hu; simpl.
    + exfalso. apply Hne.
      apply length_zero_iff_nil, union_empty in Hu as [-> ->]. done.
    + split; [lia|done].
Qed.

Lemma similarity_empty_union_witness :
  Server.tokenizeCode EmptyString = []
  ∧ Server.tokenizeCode "if (x) { return 1; }" = []
  ∧ Server.calculateSimilarityNumber EmptyString "if (x) { return 1; }" = JS.Finite 0.
Proof.
  assert (Server.tokenizeCode EmptyString = []) as H1 by reflexivity.
  assert (Server.tokenizeCode "if (x) { return 1; }" = []) as H2 by reflexivity.
  split; [exact H1|]. split; [exact H2|].
  exact (proj2 (proj2 (proj1 (proj2
           (similarity_empty_union EmptyString "if (x) { return 1; }")) H1 H2))).
Defined.

(** ** The explanation generator *)

(** C8: the context names the tokens of the snippet that are also tokens
    of the query, each once, in the order of their first occurrence in the
    snippet, and at most the first 3 of them, after the prefix
    "Common patterns: " and separated by ", "; when no token is common
    it is the fixed string "Structural similarity detected". *)
Theorem explain_common_patterns (snippetCode currentCode : string) :
  exists common : list string,
    NoDup common
    ∧ (forall t, t ∈ common
                 <-> t ∈ Server.tokenizeCode snippetCode
                     ∧ t ∈ Server.tokenizeCode currentCode)
    ∧ common `sublist_of` Server.tokenizeCode snippetCode
    ∧ common = filter (fun t => t ∈ Server.tokenizeCode currentCode)
                 (JS.mkSet (Server.tokenizeCode snippetCode))
    ∧ (length (take 3 common) <= 3)%nat
    ∧ Server.getCodeContext snippetCode currentCode
      = (if decide (common = [])
         then "Structural similarity detected"
         else "Common patterns: " +:+ JS.join ", " (take 3 common))
    ∧ Server.getCodeContext "fetch header json" "fetch json array"
      = "Common patterns: fetch, json".
Proof.
  exists (filter (fun t => t ∈ Server.tokenizeCode currentCode)
            (JS.mkSet (Server.tokenizeCode snippetCode))).
  assert (filter (fun t => JS.has (JS.mkSet (Server.tokenizeCode currentCode)) t)
            (JS.mkSet (Server.tokenizeCode snippetCode))
          = filter (fun t => t ∈ Server.tokenizeCode currentCode)
              (JS.mkSet (Server.tokenizeCode snippetCode))) as Hcommon.
  { apply list_filter_iff. intros t.
    unfold JS.has. by rewrite bool_decide_spec, elem_of_mkSet. }
  split_and!.
  - apply NoDup_filter, NoDup_mkSet.
  - intros t. rewrite list_elem_of_filter, elem_of_mkSet. tauto.
  - etransitivity; [apply sublist_filter | apply mkSet_sublist].
  - reflexivity.
  - rewrite length_take. lia.
  - unfold Server.getCodeContext, JS.slice0. rewrite Hcommon. clear Hcommon.
    destruct (filter _ _) as [|t ts]; [done|]. by rewrite decide_False.
  - reflexivity.
Qed.

(** ** The duplicate guard: fingerprints *)

Lemma inCache_fingerprint (code0 : string) (cache : list Snippet) (s : Snippet) :
  s ∈ cache ->
  Extension.generateCodeHash (code s) = Extension.generateCodeHash code0 ->
  Extension.inCache code0 (Extension.generateCodeHash code0) cache = true.
Proof.
  intros Hs Hh. induction Hs as [s cache|s s' cache Hs IH]; simpl.
  - by rewrite Hh, String.eqb_refl.
  - destruct (String.eqb _ _); [done|]. destruct (JS.gt _ _); [done|]. by apply IH.
Qed.

(** C4: "const x = 1;" and "const   x=2;" have the same normalized text
    and so the same fingerprint, and with a snippet of the second code in the
    cache the guard declares the first a duplicate, whatever else the cache
    holds and whatever the server answers. *)
Theorem fingerprint_example_duplicate
    (cache : list Snippet) (server : option (list AISuggestion)) (s : Snippet) :
  s ∈ cache ->
  code s = "const   x=2;" ->
  Extension.hashNormalized "const x = 1;" = "constx=0;"
  ∧ Extension.hashNormalized "const   x=2;" = "constx=0;"
  ∧ Extension.generateCodeHash "const x = 1;" = Extension.generateCodeHash "const   x=2;"
  ∧ Extension.isCodeAlreadyInVault "const x = 1;" cache server = true.
Proof.
  intros Hs Hcode. split_and!; try reflexivity.
  unfold Extension.isCodeAlreadyInVault.
  rewrite (inCache_fingerprint _ cache s Hs); [done|]. by rewrite Hcode.
Qed.

Lemma fingerprint_example_duplicate_witness :
  mkSnippet "b" "const   x=2;" ∈ [mkSnippet "a" "let y = 3;"; mkSnippet "b" "const   x=2;"]
  ∧ code (mkSnippet "b" "const   x=2;") = "const   x=2;"
  ∧ Extension.isCodeAlreadyInVault "const x = 1;"
      [mkSnippet "a" "let y = 3;"; mkSnippet "b" "const   x=2;"] None = true.
Proof.
  assert (mkSnippet "b" "const   x=2;"
          ∈ [mkSnippet "a" "let y = 3;"; mkSnippet "b" "const   x=2;"]) as Hin
    by (right; left).
  split; [exact Hin|]. split; [reflexivity|].
  apply (fingerprint_example_duplicate _ None (mkSnippet "b" "const   x=2;") Hin).
  reflexivity.
Defined.

(** More fuel than the binary length of the number changes nothing in
    its base-36 digits. *)
Lemma radix36_enough_fuel fuel extra n acc :
  (0 <= n < 36 ^ Z.of_nat (S fuel))%Z ->
  Extension.radix36 (S fuel + extra) n acc = Extension.radix36 (S fuel) n acc.
Proof.
  revert n acc. induction fuel as [|fuel IH]; intros n acc Hn.
  - simpl in *. destruct (Z.ltb_spec n 36); [done|lia].
  - change (Extension.radix36 (S (S fuel + extra)) n acc
            = Extension.radix36 (S (S fuel)) n acc).
    cbn [Extension.radix36]. destruct (Z.ltb_spec n 36); [done|].
    apply IH. split; [apply Z.div_pos; lia|].
    apply Z.div_lt_upper_bound; [lia|].
    rewrite (Nat2Z.inj_succ (S fuel)), Z.pow_succ_r in Hn by lia. lia.
Qed.

Lemma toString36_enough_fuel (n : Z) (extra : nat) :
  (0 <= n)%Z ->
  Extension.radix36 (S (Z.to_nat (Z.log2 n)) + extra) n EmptyString
  = Extension.toString36 n.
Proof.
  intros Hn. apply radix36_enough_fuel. split; [done|].
  destruct (decide (n = 0%Z)) as [->|Hne]; [done|].
  pose proof (Z.log2_nonneg n) as Hl.
  destruct (Z.log2_spec n) as [_ Hup]; [lia|].
  eapply Z.lt_le_trans; [exact Hup|].
  rewrite Nat2Z.inj_succ, Z2Nat.id by done.
  apply Z.pow_le_mono_l. lia.
Qed.

(** ** The duplicate guard: line similarity *)

Lemma allChars_app p (s1 s2 : string) :
  allChars p (s1 +:+ s2) = allChars p s1 && allChars p s2.
Proof.
  induction s1 as [|c s1 IH]; simpl; [done|]. by rewrite IH, andb_assoc.
Qed.

(** A replacement can only bring in the characters of its replacement
    text. *)
Lemma replaceFrom_allChars p matchAt rep skip prev s :
  allChars p rep = true ->
  allChars p s = true ->
  allChars p (JS.replaceFrom matchAt rep skip prev s) = true.
Proof.
  intros Hrep. revert skip prev.
  induction s as [|c s IH]; intros skip prev Hs; simpl in *; [done|].
  apply andb_true_iff in Hs as [Hc Hs].
  destruct skip as [|k]; [|by apply IH].
  destruct (matchAt prev (String c s)) as [[|k]|]; simpl.
  - by rewrite Hc, IH.
  - by rewrite allChars_app, Hrep, IH.
  - by rewrite Hc, IH.
Qed.

Lemma matchSpaces_cons prev c s :
  JS.matchSpaces prev (String c s)
  = if JS.isSpace c then Some (S (JS.spanLength JS.isSpace s)) else None.
Proof. unfold JS.matchSpaces. simpl. by destruct (JS.isSpace c). Qed.

(** Replacing every run of whitespace by a space leaves no newline. *)
Lemma collapse_spaces_no_newline skip prev s :
  allChars notNewline (JS.replaceFrom JS.matchSpaces " " skip prev s) = true.
Proof.
  revert skip prev. induction s as [|c s IH]; intros skip prev; [done|].
  cbn [JS.replaceFrom]. destruct skip as [|k]; [|by apply IH].
  rewrite matchSpaces_cons. destruct (JS.isSpace c) eqn:Hc.
  - by rewrite allChars_app, IH.
  - cbn [allChars]. rewrite IH, andb_true_r. unfold notNewline.
    destruct (Ascii.eqb_spec Extension.newline c) as [<-|]; [discriminate|done].
Qed.

Lemma trimStart_allChars p s :
  allChars p s = true -> allChars p (JS.trimStart s) = true.
Proof.
  induction s as [|c s IH]; simpl; [done|].
  intros [Hc Hs]%andb_true_iff. destruct (JS.isSpace c); [by apply IH|].
  simpl. by rewrite Hc, Hs.
Qed.

Lemma trimEnd_allChars p s :
  allChars p s = true -> allChars p (JS.trimEnd s) = true.
Proof.
  induction s as [|c s IH]; simpl; [done|].
  intros [Hc Hs]%andb_true_iff. specialize (IH Hs).
  destruct (JS.trimEnd s); [destruct (JS.isSpace c)|]; simpl in *;
    rewrite ?Hc; done.
Qed.

Lemma normalizeCode_no_newline (code0 : string) :
  allChars notNewline (Extension.normalizeCode code0) = true.
Proof.
  unfold Extension.normalizeCode, JS.trim, Extension.normalizeLiterals, JS.replaceAll.
  apply trimEnd_allChars, trimStart_allChars.
  do 3 (apply replaceFrom_allChars; [reflexivity|]).
  apply collapse_spaces_no_newline.
Qed.

Lemma splitOn_no_separator (s : string) :
  allChars notNewline s = true -> JS.splitOn (Ascii.eqb Extension.newline) s = [s].
Proof.
  induction s as [|c s IH]; [done|]. cbn [JS.splitOn allChars].
  intros [Hc Hs]%andb_true_iff. unfold notNewline in Hc.
  apply negb_true_iff in Hc. rewrite Hc, IH; done.
Qed.

(** The text [calculateCodeSimilarity] splits is a single line, so each of
    its two line sets has at most one element ... *)
Lemma codeLines_single (code0 : string) :
  Extension.codeLines (Extension.normalizeCode code0) = []
  ∨ Extension.codeLines (Extension.normalizeCode code0) = [Extension.normalizeCode code0].
Proof.
  unfold Extension.codeLines.
  rewrite splitOn_no_separator by apply normalizeCode_no_newline.
  rewrite filter_cons, filter_nil. case_decide; [right|left]; done.
Qed.

(** ... and the similarity it returns is 0 or 1, never in between. *)
Lemma calculateCodeSimilarity_all_or_nothing (code1 code2 : string) :
  (Extension.calculateCodeSimilarity code1 code2 == 0)%Q
  ∨ (Extension.calculateCodeSimilarity code1 code2 == 1)%Q.
Proof.
  unfold Extension.calculateCodeSimilarity. cbv zeta.
  destruct (codeLines_single code1) as [-> | ->];
    destruct (codeLines_single code2) as [-> | ->]; try (by left).
  generalize (Extension.normalizeCode code1) (Extension.normalizeCode code2).
  intros a b. rewrite filter_cons, filter_nil. cbn [app].
  rewrite !mkSet_cons, mkSet_nil, !filter_cons, !filter_nil.
  unfold JS.has. destruct (decide (a = b)) as [->|Hab].
  - right. rewrite decide_False by congruence.
    rewrite decide_True by (apply bool_decide_spec; left). done.
  - left. rewrite decide_True by congruence.
    rewrite decide_False; [done|].
    rewrite bool_decide_spec. by intros ->%list_elem_of_singleton.
Qed.

(** C1: [tenLines] holds ten distinct lines longer than 5 characters and
    [nineLines] nine of them, so the line sets of the specification have
    Jaccard similarity 0.9, above 0.8; the code's normalization turns each
    text into one line, computes 0, and the guard does not declare the
    duplicate, with the server unreachable and also with the server's
    ranking of this cache. *)
Theorem near_duplicate_lines_collapsed :
  (Spec.lineSimilarity tenLines nineLines == 9 # 10)%Q
  ∧ JS.gt (Spec.lineSimilarity tenLines nineLines) (8 # 10) = true
  ∧ length (Extension.codeLines (Extension.normalizeCode tenLines)) = 1%nat
  ∧ length (Extension.codeLines (Extension.normalizeCode nineLines)) = 1%nat
  ∧ (Extension.calculateCodeSimilarity tenLines nineLines == 0)%Q
  ∧ JS.gt (Extension.calculateCodeSimilarity tenLines nineLines) (8 # 10) = false
  ∧ Extension.isCodeAlreadyInVault tenLines nineLinesCache None = false
  ∧ Extension.isCodeAlreadyInVault tenLines nineLinesCache
      (Some (Server.analyzeSimilarity tenLines nineLinesCache)) = false.
Proof. vm_compute. split_and!; reflexivity. Qed.

(** ** The duplicate guard: the recently-processed set *)

Lemma run_invariant (P : Extension.State -> Prop) :
  (forall e st st', P st -> Extension.step e st = Some st' -> P st') ->
  forall evs st st', P st -> Extension.run evs st = Some st' -> P st'.
Proof.
  intros Hstep evs. induction evs as [|e evs IH]; intros st st' HP Hrun; simpl in Hrun.
  - by simplify_eq.
  - destruct (Extension.step e st) as [st1|] eqn:He; [|done].
    eapply IH; [|exact Hrun]. by eapply Hstep.
Qed.

Lemma isDuplicateCode_spec st h :
  Extension.isDuplicateCode st h = true <-> h ∈ Extension.recentlyProcessed st.
Proof. unfold Extension.isDuplicateCode. apply bool_decide_eq_true. Qed.

Lemma isDuplicateCode_false st h :
  Extension.isDuplicateCode st h = false <-> h ∉ Extension.recentlyProcessed st.
Proof. unfold Extension.isDuplicateCode. apply bool_decide_eq_false. Qed.

Lemma wellTimed_initial : wellTimed Extension.initial.
Proof. split; [constructor|]. intros h. simpl. set_solver. Qed.

Lemma wellTimed_step e st st' :
  wellTimed st -> Extension.step e st = Some st' -> wellTimed st'.
Proof.
  intros [Hnd Hiff] Hstep. destruct e as [d|i|code0|cache]; simpl in Hstep.
  - destruct (0 <=? d)%Z; simplify_eq. by split.
  - destruct (Extension.timers st !! i) as [[due h]|] eqn:Hi; [|done].
    destruct (due <=? Extension.now st)%Z; simplify_eq.
    assert ((Extension.timers st).*2 !! i = Some h) as Hi2.
    { by rewrite list_lookup_fmap, Hi. }
    pose proof (delete_Permutation _ _ _ Hi2) as Hperm.
    assert (NoDup (h :: delete i (Extension.timers st).*2)) as Hnd'.
    { by rewrite <- Hperm. }
    assert (forall x, x ∈ (Extension.timers st).*2
                      <-> x = h ∨ x ∈ delete i (Extension.timers st).*2) as Hmem.
    { intros x. rewrite <- elem_of_cons. by rewrite <- Hperm. }
    apply NoDup_cons in Hnd' as [Hh Hnd'].
    split; simpl; rewrite list_fmap_delete; [done|].
    intros h'. rewrite elem_of_difference, elem_of_singleton, Hiff, Hmem.
    split; [tauto|]. intros Hin. split; [by right|].
    by intros ->.
  - unfold Extension.saveSnippetToVault in Hstep.
    destruct (Extension.isDuplicateCode st _) eqn:Hdup; simplify_eq; [by split|].
    apply isDuplicateCode_false in Hdup.
    split; simpl; rewrite fmap_app; simpl.
    + apply NoDup_app. split_and!; [done| |apply NoDup_singleton].
      intros h Hh ->%list_elem_of_singleton. by apply Hdup, Hiff.
    + intros h. rewrite elem_of_union, elem_of_singleton, elem_of_app,
        list_elem_of_singleton, Hiff. tauto.
  - simplify_eq. by split.
Qed.

Lemma wellTimed_run evs st :
  Extension.run evs Extension.initial = Some st -> wellTimed st.
Proof.
  apply (run_invariant wellTimed); [|apply wellTimed_initial].
  intros e s s'. apply wellTimed_step.
Qed.

Lemma save_sent code0 st st1 :
  Extension.saveSnippetToVault code0 st = (st1, Extension.Sent code0) ->
  (Extension.generateCodeHash code0 ∉ Extension.recentlyProcessed st)
  ∧ Extension.now st1 = Extension.now st
  ∧ Extension.recentlyProcessed st1
    = {[Extension.generateCodeHash code0]} ∪ Extension.recentlyProcessed st
  ∧ Extension.timers st1
    = Extension.timers st
      ++ [((Extension.now st + 60000)%Z, Extension.generateCodeHash code0)].
Proof.
  unfold Extension.saveSnippetToVault.
  destruct (Extension.isDuplicateCode st _) eqn:Hdup; intros H; simplify_eq.
  by apply isDuplicateCode_false in Hdup.
Qed.

Lemma inWindow_after_save code0 st st1 :
  wellTimed st ->
  Extension.saveSnippetToVault code0 st = (st1, Extension.Sent code0) ->
  inWindow (Extension.generateCodeHash code0) (Extension.now st + 60000) st1.
Proof.
  intros Hwt Hsave.
  assert (wellTimed st1) as Hwt1.
  { apply (wellTimed_step (Extension.Save code0) st); [done|]. simpl. by rewrite Hsave. }
  apply save_sent in Hsave as (Hfresh & Hnow & Hset & Htimers).
  split_and!; [done|lia| |].
  - intros due. rewrite Htimers, elem_of_app, list_elem_of_singleton.
    intros [Hin|Heq]; [|simplify_eq; lia].
    exfalso. apply Hfresh, Hwt. apply list_elem_of_fmap.
    by exists (due, Extension.generateCodeHash code0).
  - intros _. rewrite Hset. apply elem_of_union. left. by apply elem_of_singleton.
Qed.

Lemma inWindow_step h expiry e st st' :
  inWindow h expiry st -> Extension.step e st = Some st' -> inWindow h expiry st'.
Proof.
  intros (Hwt & Hnow & Hdue & Hin) Hstep.
  assert (wellTimed st') as Hwt' by by eapply wellTimed_step.
  split; [done|]. clear Hwt Hwt'.
  destruct e as [d|i|code0|cache]; simpl in Hstep.
  - destruct (0 <=? d)%Z eqn:Hd; simplify_eq. apply Z.leb_le in Hd. simpl.
    split_and!; [lia|done|]. intros ?. apply Hin. lia.
  - destruct (Extension.timers st !! i) as [[due h']|] eqn:Hi; [|done].
    destruct (due <=? Extension.now st)%Z eqn:Hfire; simplify_eq.
    apply Z.leb_le in Hfire. simpl. split_and!; [done| |].
    + intros due' Hd. by apply Hdue, (list_elem_of_delete_inv _ i).
    + intros Hlt. apply elem_of_difference. split; [by apply Hin|].
      intros ->%elem_of_singleton.
      assert (expiry <= due)%Z; [|lia].
      apply Hdue. by eapply list_elem_of_lookup_2.
  - unfold Extension.saveSnippetToVault in Hstep.
    destruct (Extension.isDuplicateCode st _); simplify_eq; [done|]. simpl.
    split_and!; [done| |].
    + intros due. rewrite elem_of_app, list_elem_of_singleton.
      intros [?|?]; [by apply Hdue|simplify_eq; lia].
    + intros Hlt. apply elem_of_union. right. by apply Hin.
  - by simplify_eq.
Qed.

Lemma inWindow_run h expiry evs st st' :
  inWindow h expiry st -> Extension.run evs st = Some st' -> inWindow h expiry st'.
Proof.
  apply (run_invariant (inWindow h expiry)).
  intros e s s'. apply inWindow_step.
Qed.

(** C5: once [saveSnippetToVault] has let a candidate through, its
    fingerprint is in the recently-processed set with a callback due 60000 ms
    later.  Whatever happens next (time passing, callbacks running, other
    saves, any change of the snippet cache), while the clock is before that
    due time the fingerprint check answers true and a resubmission is
    suppressed without touching the state; a fingerprint in the set always
    has its callback pending, that callback can run once the clock has
    reached its due time and not before, and once it has run the fingerprint
    is gone and the same candidate is sent again. *)
Theorem recent_fingerprint_window
    (evs0 evs : list Extension.Event) (st st1 st2 : Extension.State) (code0 : string) :
  Extension.run evs0 Extension.initial = Some st ->
  Extension.saveSnippetToVault code0 st = (st1, Extension.Sent code0) ->
  Extension.run evs st1 = Some st2 ->
  (dueAfter st, fingerprint code0) ∈ Extension.timers st1
  ∧ ((Extension.now st2 < dueAfter st)%Z ->
     Extension.isDuplicateCode st2 (fingerprint code0) = true
     ∧ Extension.saveSnippetToVault code0 st2 = (st2, Extension.SkippedRecentlyCaptured)
     ∧ forall vault,
         Extension.processCodeCapture code0 vault st2 = (st2, Extension.SkippedInVault)
         ∨ Extension.processCodeCapture code0 vault st2 = (st2, Extension.SkippedRecent)
         ∨ Extension.processCodeCapture code0 vault st2
           = (st2, Extension.SkippedRecentlyCaptured))
  ∧ (Extension.isDuplicateCode st2 (fingerprint code0) = true ->
     exists i due,
       Extension.timers st2 !! i = Some (due, fingerprint code0)
       ∧ (dueAfter st <= due)%Z)
  ∧ (forall i due,
       Extension.timers st2 !! i = Some (due, fingerprint code0) ->
       (due <= Extension.now st2)%Z ->
       is_Some (Extension.step (Extension.Fire i) st2))
  ∧ (forall i due st3,
       Extension.timers st2 !! i = Some (due, fingerprint code0) ->
       Extension.step (Extension.Fire i) st2 = Some st3 ->
       (dueAfter st <= Extension.now st3)%Z
       ∧ Extension.isDuplicateCode st3 (fingerprint code0) = false
       ∧ exists st4, Extension.saveSnippetToVault code0 st3 = (st4, Extension.Sent code0)).
Proof.
  intros Hst Hsave Hrun. unfold fingerprint, dueAfter.
  set (h := Extension.generateCodeHash code0).
  set (expiry := (Extension.now st + 60000)%Z).
  pose proof (wellTimed_run _ _ Hst) as Hwt.
  pose proof (inWindow_after_save _ _ _ Hwt Hsave) as Hw1.
  pose proof (inWindow_run _ _ _ _ _ Hw1 Hrun) as (Hwt2 & Hnow2 & Hdue2 & Hin2).
  split_and!.
  - apply save_sent in Hsave as (_ & _ & _ & ->).
    apply elem_of_app. right. by apply list_elem_of_singleton.
  - intros Hlt. specialize (Hin2 Hlt).
    assert (Extension.isDuplicateCode st2 h = true) as Hdup
      by by apply isDuplicateCode_spec.
    assert (Extension.saveSnippetToVault code0 st2
            = (st2, Extension.SkippedRecentlyCaptured)) as Hskip.
    { unfold Extension.saveSnippetToVault. fold h. by rewrite Hdup. }
    split_and!; [done..|].
    intros vault. unfold Extension.processCodeCapture.
    destruct vault; [by left|].
    destruct (Extension.isDuplicateCode st2 code0); simpl; auto.
  - intros Hdup%isDuplicateCode_spec.
    apply Hwt2, list_elem_of_fmap in Hdup as ([due h'] & Hh & Hmem). simpl in Hh. subst h'.
    apply list_elem_of_lookup in Hmem as [i Hi].
    exists i, due. split; [done|]. apply Hdue2. by eapply list_elem_of_lookup_2.
  - intros i due Hi Hle. simpl. rewrite Hi.
    apply Z.leb_le in Hle. rewrite Hle. by eexists.
  - intros i due st3 Hi Hfire.
    assert (expiry <= due)%Z as Hexp by (apply Hdue2; by eapply list_elem_of_lookup_2).
    simpl in Hfire. rewrite Hi in Hfire.
    destruct (due <=? Extension.now st2)%Z eqn:Hle; simplify_eq.
    apply Z.leb_le in Hle. simpl.
    assert (Extension.isDuplicateCode
              {| Extension.now := Extension.now st2;
                 Extension.recentlyProcessed := Extension.recentlyProcessed st2 ∖ {[h]};
                 Extension.timers := delete i (Extension.timers st2);
                 Extension.existingSnippetsCache := Extension.existingSnippetsCache st2 |}
              h = false) as Hgone.
    { apply isDuplicateCode_false. simpl.
      intros [_ Hn]%elem_of_difference. apply Hn. by apply elem_of_singleton. }
    split_and!; [lia|done|].
    unfold Extension.saveSnippetToVault. fold h. rewrite Hgone. by eexists.
Qed.

Lemma recent_fingerprint_window_witness :
  let evs := [Extension.Tick 30000; Extension.Save "let y = 2;";
              Extension.SetCache []; Extension.Tick 29999] in
  let st1 := fst (Extension.saveSnippetToVault "const x = 1;" Extension.initial) in
  let st2 := default Extension.initial (Extension.run evs st1) in
  Extension.run [] Extension.initial = Some Extension.initial
  ∧ Extension.saveSnippetToVault "const x = 1;" Extension.initial
    = (st1, Extension.Sent "const x = 1;")
  ∧ Extension.run evs st1 = Some st2
  ∧ (Extension.now st2 < Extension.now Extension.initial + 60000)%Z
  ∧ Extension.saveSnippetToVault "const x = 1;" st2
    = (st2, Extension.SkippedRecentlyCaptured).
Proof.
  intros evs st1 st2.
  assert (Extension.run [] Extension.initial = Some Extension.initial) as H0
    by reflexivity.
  assert (Extension.saveSnippetToVault "const x = 1;" Extension.initial
          = (st1, Extension.Sent "const x = 1;")) as H1 by (vm_compute; reflexivity).
  assert (Extension.run evs st1 = Some st2) as H2 by (vm_compute; reflexivity).
  assert (Extension.now st2 < Extension.now Extension.initial + 60000)%Z as H3
    by (vm_compute; reflexivity).
  split; [exact H0|]. split; [exact H1|]. split; [exact H2|]. split; [exact H3|].
  apply (recent_fingerprint_window [] evs Extension.initial st1 st2 "const x = 1;"
           H0 H1 H2).
  exact H3.
Defined.

(** ** The pre-save check of [processCodeCapture] *)

Lemma toInt32_range z : (- 2 ^ 31 <= Extension.toInt32 z < 2 ^ 31)%Z.
Proof.
  unfold Extension.toInt32.
  pose proof (Z.mod_pos_bound z (2 ^ 32)) as Hm.
  destruct (Z.ltb_spec (z mod 2 ^ 32) (2 ^ 31)); lia.
Qed.

Lemma hashLoop_range s z :
  (- 2 ^ 31 <= z < 2 ^ 31)%Z -> (- 2 ^ 31 <= Extension.hashLoop z s < 2 ^ 31)%Z.
Proof.
  revert z. induction s as [|c s IH]; intros z Hz; simpl; [done|].
  apply IH, toInt32_range.
Qed.

Lemma radix36_length fuel n acc k :
  (0 <= n < 36 ^ Z.of_nat (S k))%Z ->
  (String.length (Extension.radix36 fuel n acc) <= S k + String.length acc)%nat.
Proof.
  revert n acc k. induction fuel as [|fuel IH]; intros n acc k Hn; simpl; [lia|].
  destruct (Z.ltb_spec n 36) as [Hlt|Hge]; [simpl; lia|].
  destruct k as [|k]; [simpl in Hn; lia|].
  etransitivity; [apply (IH _ _ k)|simpl; lia].
  split; [apply Z.div_pos; lia|].
  apply Z.div_lt_upper_bound; [lia|].
  rewrite (Nat2Z.inj_succ (S k)), Z.pow_succ_r in Hn by lia. lia.
Qed.

(** A fingerprint has at most 6 characters: 2^31 is below 36^6. *)
Lemma generateCodeHash_length (code0 : string) :
  (String.length (Extension.generateCodeHash code0) <= 6)%nat.
Proof.
  unfold Extension.generateCodeHash, Extension.simpleHash, Extension.toString36.
  pose proof (hashLoop_range (Extension.hashNormalized code0) 0) as Hr.
  etransitivity; [apply (radix36_length _ _ _ 5)|simpl; lia].
  change (36 ^ Z.of_nat 6)%Z with 2176782336%Z. lia.
Qed.

Lemma holdsFingerprints_step e st st' :
  holdsFingerprints st -> Extension.step e st = Some st' -> holdsFingerprints st'.
Proof.
  intros Hst Hstep. destruct e as [d|i|code0|cache]; simpl in Hstep.
  - destruct (0 <=? d)%Z; by simplify_eq.
  - destruct (Extension.timers st !! i) as [[due h']|]; [|done].
    destruct (due <=? Extension.now st)%Z; simplify_eq.
    intros h [Hh _]%elem_of_difference. by apply Hst.
  - unfold Extension.saveSnippetToVault in Hstep.
    destruct (Extension.isDuplicateCode st _); simplify_eq; [done|].
    intros h [->%elem_of_singleton|Hh]%elem_of_union; [by eexists|by apply Hst].
  - by simplify_eq.
Qed.

Lemma holdsFingerprints_run evs st :
  Extension.run evs Extension.initial = Some st -> holdsFingerprints st.
Proof.
  apply (run_invariant holdsFingerprints).
  - intros e s s'. apply holdsFingerprints_step.
  - intros h Hh. simpl in Hh. by apply not_elem_of_empty in Hh.
Qed.

(** C9: in every state the extension can reach, the recently-processed
    set holds only fingerprints, which have at most 6 characters.  So the
    pre-save check of [processCodeCapture], which looks the code itself up in
    that set, answers false for every code that is not itself a fingerprint,
    in particular for every code longer than 6 characters; the capture then
    goes on to [saveSnippetToVault], and whether it is suppressed there is
    decided by the lookup of the code's fingerprint. *)
Theorem presave_check_misses_fingerprints
    (evs : list Extension.Event) (st : Extension.State) (code0 : string) :
  Extension.run evs Extension.initial = Some st ->
  holdsFingerprints st
  ∧ ((forall h, h ∈ Extension.recentlyProcessed st -> code0 <> h) ->
     Extension.isDuplicateCode st code0 = false)
  ∧ ((forall c, code0 <> Extension.generateCodeHash c) ->
     Extension.isDuplicateCode st code0 = false)
  ∧ ((6 < String.length code0)%nat -> Extension.isDuplicateCode st code0 = false)
  ∧ (Extension.isDuplicateCode st code0 = false ->
     Extension.processCodeCapture code0 false st
     = Extension.saveSnippetToVault code0 st
     ∧ Extension.saveSnippetToVault code0 st
       = if Extension.isDuplicateCode st (Extension.generateCodeHash code0)
         then (st, Extension.SkippedRecentlyCaptured)
         else (fst (Extension.saveSnippetToVault code0 st), Extension.Sent code0)).
Proof.
  intros Hrun. pose proof (holdsFingerprints_run _ _ Hrun) as Hfp.
  assert ((forall c, code0 <> Extension.generateCodeHash c) ->
          Extension.isDuplicateCode st code0 = false) as Hmiss.
  { intros Hne. apply isDuplicateCode_false. intros [c Hc]%Hfp. by apply (Hne c). }
  split_and!; [done| |done| |].
  - intros Hne. apply isDuplicateCode_false. intros Hin. by apply (Hne code0).
  - intros Hlen. apply Hmiss. intros c ->.
    pose proof (generateCodeHash_length c). lia.
  - intros Hpre. unfold Extension.processCodeCapture. rewrite Hpre. simpl.
    split; [done|]. unfold Extension.saveSnippetToVault. cbv zeta.
    by destruct (Extension.isDuplicateCode st (Extension.generateCodeHash code0)).
Qed.

Lemma presave_check_misses_fingerprints_witness :
  let evs := [Extension.Save "const x = 1;"; Extension.Tick 1000] in
  let st := default Extension.initial (Extension.run evs Extension.initial) in
  Extension.run evs Extension.initial = Some st
  ∧ Extension.isDuplicateCode st "const x = 1;" = false
  ∧ Extension.isDuplicateCode st (Extension.generateCodeHash "const x = 1;") = true.
Proof.
  intros evs st.
  assert (Extension.run evs Extension.initial = Some st) as Hrun
    by (vm_compute; reflexivity).
  split; [exact Hrun|]. split; [|vm_compute; reflexivity].
  apply (presave_check_misses_fingerprints evs st "const x = 1;" Hrun).
  change (6 < 12)%nat. lia.
Defined.

(** * Further properties of the code *)

(** ** The Jaccard quotient *)

Lemma calculateSimilarity_jaccard (code1 code2 : string) :
  Server.calculateSimilarity code1 code2
  = jaccard (Server.tokenizeCode code1) (Server.tokenizeCode code2).
Proof. reflexivity. Qed.

Lemma local_similarity_jaccard (code1 code2 : string) :
  Renderer.calculateCodeSimilarity code1 code2
  = jaccard (Renderer.tokenizeCode code1) (Renderer.tokenizeCode code2).
Proof. reflexivity. Qed.

Lemma elem_of_intersection (t1 t2 : list string) (x : string) :
  x ∈ JS.mkSet (filter (fun y => JS.has (JS.mkSet t2) y) (JS.mkSet t1))
  <-> x ∈ t1 ∧ x ∈ t2.
Proof.
  rewrite elem_of_mkSet, list_elem_of_filter. unfold JS.has.
  rewrite bool_decide_spec, !elem_of_mkSet. tauto.
Qed.

Lemma elem_of_union_set (t1 t2 : list string) (x : string) :
  x ∈ JS.mkSet (JS.mkSet t1 ++ JS.mkSet t2) <-> x ∈ t1 ∨ x ∈ t2.
Proof. by rewrite elem_of_mkSet, elem_of_app, !elem_of_mkSet. Qed.

Lemma intersection_length_sym (t1 t2 : list string) :
  length (JS.mkSet (filter (fun y => JS.has (JS.mkSet t2) y) (JS.mkSet t1)))
  = length (JS.mkSet (filter (fun y => JS.has (JS.mkSet t1) y) (JS.mkSet t2))).
Proof.
  apply Permutation_length, NoDup_Permutation; try apply NoDup_mkSet.
  intros x. rewrite !elem_of_intersection. tauto.
Qed.

Lemma union_length_sym (t1 t2 : list string) :
  length (JS.mkSet (JS.mkSet t1 ++ JS.mkSet t2))
  = length (JS.mkSet (JS.mkSet t2 ++ JS.mkSet t1)).
Proof.
  apply Permutation_length, NoDup_Permutation; try apply NoDup_mkSet.
  intros x. rewrite !elem_of_union_set. tauto.
Qed.

Lemma jaccard_sym (t1 t2 : list string) : jaccard t1 t2 = jaccard t2 t1.
Proof.
  unfold jaccard. cbv zeta.
  by rewrite (intersection_length_sym t1 t2), (union_length_sym t1 t2).
Qed.

Lemma ratio_zero (i u : nat) : (JS.ratio i u == 0)%Q <-> i = 0%nat.
Proof. unfold JS.ratio, Qeq. cbn [Qnum Qden]. lia. Qed.

Lemma ratio_one (i u : nat) : (0 < u)%nat -> (JS.ratio i u == 1)%Q <-> i = u.
Proof.
  intros Hu. unfold JS.ratio, Qeq. cbn [Qnum Qden].
  destruct u as [|u]; [lia|].
  rewrite <- Pos.of_nat_succ, Zpos_P_of_succ_nat. lia.
Qed.

Lemma jaccard_cases (t1 t2 : list string) :
  (t1 = [] ∧ t2 = [] ∧ jaccard t1 t2 = 0%Q)
  ∨ ((0 < length (JS.mkSet (JS.mkSet t1 ++ JS.mkSet t2)))%nat
     ∧ jaccard t1 t2
       = JS.ratio
           (length (JS.mkSet (filter (fun y => JS.has (JS.mkSet t2) y) (JS.mkSet t1))))
           (length (JS.mkSet (JS.mkSet t1 ++ JS.mkSet t2)))).
Proof.
  unfold jaccard. cbv zeta.
  destruct (length (JS.mkSet (JS.mkSet t1 ++ JS.mkSet t2))) as [|u] eqn:Hu.
  - left. apply length_zero_iff_nil, union_empty in Hu as [-> ->]. done.
  - right. split; [lia|done].
Qed.

Lemma jaccard_zero (t1 t2 : list string) :
  (jaccard t1 t2 == 0)%Q <-> forall x, x ∈ t1 -> x ∉ t2.
Proof.
  destruct (jaccard_cases t1 t2) as [(-> & -> & ->)|[Hu ->]].
  - split; [|done]. intros _ x Hx. by apply not_elem_of_nil in Hx.
  - rewrite ratio_zero, length_zero_iff_nil. split.
    + intros Hnil x H1 H2.
      assert (x ∈ JS.mkSet (filter (fun y => JS.has (JS.mkSet t2) y) (JS.mkSet t1)))
        as Hx by by apply elem_of_intersection.
      rewrite Hnil in Hx. by apply not_elem_of_nil in Hx.
    + intros Hdis.
      destruct (JS.mkSet (filter _ _)) as [|x l] eqn:Hl; [done|].
      assert (x ∈ t1 ∧ x ∈ t2) as [H1 H2].
      { apply elem_of_intersection. rewrite Hl. by left. }
      by destruct (Hdis x H1).
Qed.

Lemma jaccard_one (t1 t2 : list string) :
  (jaccard t1 t2 == 1)%Q <-> t1 <> [] ∧ forall x, x ∈ t1 <-> x ∈ t2.
Proof.
  destruct (jaccard_cases t1 t2) as [(-> & -> & ->)|[Hu ->]].
  - split; [discriminate|]. by intros [? _].
  - rewrite ratio_one by done. split.
    + intros Hlen.
      assert (JS.mkSet (filter (fun y => JS.has (JS.mkSet t2) y) (JS.mkSet t1))
              ≡ₚ JS.mkSet (JS.mkSet t1 ++ JS.mkSet t2)) as Hperm.
      { apply submseteq_length_Permutation; [|lia].
        apply NoDup_submseteq; [apply NoDup_mkSet|].
        intros x. rewrite elem_of_intersection, elem_of_union_set. tauto. }
      assert (forall x, x ∈ t1 <-> x ∈ t2) as Hsame.
      { intros x. split; intros Hx.
        - assert (x ∈ JS.mkSet (JS.mkSet t1 ++ JS.mkSet t2)) as HU
            by (apply elem_of_union_set; by left).
          rewrite <- Hperm in HU. by apply elem_of_intersection in HU as [_ ?].
        - assert (x ∈ JS.mkSet (JS.mkSet t1 ++ JS.mkSet t2)) as HU
            by (apply elem_of_union_set; by right).
          rewrite <- Hperm in HU. by apply elem_of_intersection in HU as [? _]. }
      split; [|done]. intros ->.
      destruct (JS.mkSet (JS.mkSet [] ++ JS.mkSet t2)) as [|x l] eqn:Hl;
        [simpl in Hu; lia|].
      assert (x ∈ [] ∨ x ∈ t2) as [Hx|Hx].
      { apply elem_of_union_set. rewrite Hl. by left. }
      * by apply not_elem_of_nil in Hx.
      * apply Hsame in Hx. by apply not_elem_of_nil in Hx.
    + intros [_ Hsame]. apply Permutation_length, NoDup_Permutation;
        try apply NoDup_mkSet.
      intros x. rewrite elem_of_intersection, elem_of_union_set, Hsame. tauto.
Qed.

Lemma jaccard_range (t1 t2 : list string) : (0 <= jaccard t1 t2 <= 1)%Q.
Proof.
  destruct (jaccard_cases t1 t2) as [(-> & -> & ->)|[Hu ->]]; [done|].
  pose proof (intersection_le_union (JS.mkSet t1) (JS.mkSet t2)) as Hle.
  destruct (length (JS.mkSet (JS.mkSet t1 ++ JS.mkSet t2))) as [|u]; [lia|].
  unfold JS.ratio, Qle. cbn [Qnum Qden].
  rewrite <- Pos.of_nat_succ, Zpos_P_of_succ_nat. split; lia.
Qed.

(** ** The similarity scorer, continued *)

(** X1: the score does not depend on the order of its two arguments. *)
Theorem similarity_symmetric (code1 code2 : string) :
  Server.calculateSimilarity code1 code2 = Server.calculateSimilarity code2 code1.
Proof. rewrite !calculateSimilarity_jaccard. apply jaccard_sym. Qed.

(** X2: the score lies between 0 and 1. *)
Theorem similarity_between_0_and_1 (code1 code2 : string) :
  (0 <= Server.calculateSimilarity code1 code2 <= 1)%Q.
Proof. rewrite calculateSimilarity_jaccard. apply jaccard_range. Qed.

(** X3: the score is 0 exactly when the two codes have no token in
    common. *)
Theorem similarity_zero_iff_disjoint (code1 code2 : string) :
  (Server.calculateSimilarity code1 code2 == 0)%Q
  <-> forall t, t ∈ Server.tokenizeCode code1 -> t ∉ Server.tokenizeCode code2.
Proof. rewrite calculateSimilarity_jaccard. apply jaccard_zero. Qed.

(** X4: the score is 1 exactly when the first code has a token and the
    two codes have the same tokens, whatever their order and number of
    occurrences. *)
Theorem similarity_one_iff_same_tokens (code1 code2 : string) :
  (Server.calculateSimilarity code1 code2 == 1)%Q
  <-> Server.tokenizeCode code1 <> []
      ∧ forall t, t ∈ Server.tokenizeCode code1 <-> t ∈ Server.tokenizeCode code2.
Proof. rewrite calculateSimilarity_jaccard. apply jaccard_one. Qed.

(** ** The ranker, continued *)

Lemma gt_threshold_of_zero (x : Q) : (x == 0)%Q -> JS.gt x (3 # 10) = false.
Proof. intros Hx. apply gt_false. by rewrite Hx. Qed.

Lemma collect_mono q corpus s :
  s ∈ corpus ->
  JS.gt (Server.calculateSimilarity q (code s)) (3 # 10) = true ->
  exists a, a ∈ Server.collect q corpus ∧ snippet a = s
            ∧ confidence a = Server.calculateSimilarity q (code s).
Proof.
  intros Hs Hgt. induction Hs as [s corpus|s s' corpus Hs IH]; cbn [Server.collect].
  - rewrite Hgt. eexists. split; [by left|]. done.
  - destruct (IH Hgt) as (a & Ha & Hsa & Hca).
    exists a. split; [|done].
    destruct (JS.gt (Server.calculateSimilarity q (code s')) _); [by right|done].
Qed.

(** X5: a query without tokens (empty, or made of punctuation, short
    words and keywords only) gets no suggestion, whatever the corpus. *)
Theorem rank_query_without_tokens (q : string) (corpus : list Snippet) :
  Server.tokenizeCode q = [] -> Server.analyzeSimilarity q corpus = [].
Proof.
  intros Hq. unfold Server.analyzeSimilarity.
  assert (Server.collect q corpus = []) as ->; [|done].
  induction corpus as [|s corpus IH]; [done|]. cbn [Server.collect].
  rewrite gt_threshold_of_zero; [done|].
  rewrite calculateSimilarity_jaccard. apply jaccard_zero.
  intros t Ht. rewrite Hq in Ht.
  by apply not_elem_of_nil in Ht.
Qed.

Lemma rank_query_without_tokens_witness :
  Server.tokenizeCode "if (x) { return 1; }" = []
  ∧ Server.analyzeSimilarity "if (x) { return 1; }"
      [mkSnippet "1" "if (x) { return 1; }"; mkSnippet "2" "fetch json"] = [].
Proof.
  split; [reflexivity|].
  apply (rank_query_without_tokens "if (x) { return 1; }"). reflexivity.
Defined.

(** X6: when the corpus holds a snippet with the code of the query and
    the query has a token, the ranker returns something and its first
    suggestion has confidence 1. *)
Theorem rank_exact_copy_on_top (q : string) (corpus : list Snippet) (s : Snippet) :
  s ∈ corpus ->
  code s = q ->
  Server.tokenizeCode q <> [] ->
  exists a rest,
    Server.analyzeSimilarity q corpus = a :: rest ∧ (confidence a == 1)%Q.
Proof.
  intros Hs Hcode Hq.
  assert (Server.calculateSimilarity q (code s) == 1)%Q as Hone.
  { rewrite Hcode, calculateSimilarity_jaccard. by apply jaccard_one. }
  destruct (collect_mono q corpus s Hs) as (a & Ha & _ & Hca).
  { apply gt_spec. by rewrite Hone. }
  pose proof (sort_sorted confidence _ byConfidenceDesc_key (Server.collect q corpus))
    as Hsorted.
  pose proof (sort_perm Server.byConfidenceDesc (Server.collect q corpus)) as Hperm.
  unfold Server.analyzeSimilarity, JS.slice0.
  destruct (JS.sort Server.byConfidenceDesc (Server.collect q corpus))
    as [|b rest] eqn:Hsort.
  { rewrite <- Hperm in Ha. by apply not_elem_of_nil in Ha. }
  exists b, (take 4 rest). split; [done|].
  assert (b ∈ Server.collect q corpus) as Hb by (rewrite <- Hperm; by left).
  pose proof (collect_each q corpus) as Heach. rewrite Forall_forall in Heach.
  destruct (Heach b Hb) as (_ & Hcb & _).
  apply Qle_antisym.
  - rewrite Hcb, calculateSimilarity_jaccard. apply jaccard_range.
  - rewrite <- Hperm in Ha. apply elem_of_cons in Ha as [->|Ha];
      [rewrite Hca, Hone; apply Qle_refl|].
    apply StronglySorted_inv in Hsorted as [_ Hall].
    rewrite Forall_forall in Hall. specialize (Hall a Ha). simpl in Hall.
    by rewrite Hca, Hone in Hall.
Qed.

Lemma rank_exact_copy_on_top_witness :
  mkSnippet "2" "fetch json" ∈ [mkSnippet "1" "fetch"; mkSnippet "2" "fetch json"]
  ∧ Server.tokenizeCode "fetch json" <> []
  ∧ exists a rest,
      Server.analyzeSimilarity "fetch json"
        [mkSnippet "1" "fetch"; mkSnippet "2" "fetch json"] = a :: rest
      ∧ (confidence a == 1)%Q.
Proof.
  assert (mkSnippet "2" "fetch json"
          ∈ [mkSnippet "1" "fetch"; mkSnippet "2" "fetch json"]) as Hin
    by (right; left).
  assert (Server.tokenizeCode "fetch json" <> []) as Hne by discriminate.
  split; [exact Hin|]. split; [exact Hne|].
  exact (rank_exact_copy_on_top "fetch json" _ (mkSnippet "2" "fetch json")
           Hin eq_refl Hne).
Defined.

(** X7: the ranker leaves out only suggestions that are no better than
    every one it returns, and it leaves out nothing when at most 5 snippets
    are above the threshold. *)
Theorem rank_keeps_the_best (q : string) (corpus : list Snippet) :
  exists omitted : list AISuggestion,
    Server.collect q corpus ≡ₚ Server.analyzeSimilarity q corpus ++ omitted
    ∧ (forall a b, a ∈ Server.analyzeSimilarity q corpus -> b ∈ omitted ->
                   (confidence b <= confidence a)%Q)
    ∧ (length omitted = length (Server.collect q corpus) - 5)%nat.
Proof.
  exists (drop 5 (JS.sort Server.byConfidenceDesc (Server.collect q corpus))).
  unfold Server.analyzeSimilarity, JS.slice0.
  pose proof (sort_sorted confidence _ byConfidenceDesc_key (Server.collect q corpus))
    as Hsorted.
  pose proof (sort_perm Server.byConfidenceDesc (Server.collect q corpus)) as Hperm.
  split_and!.
  - by rewrite take_drop.
  - rewrite <- (take_drop 5 (JS.sort _ _)) in Hsorted.
    revert Hsorted.
    generalize (take 5 (JS.sort Server.byConfidenceDesc (Server.collect q corpus))).
    generalize (drop 5 (JS.sort Server.byConfidenceDesc (Server.collect q corpus))).
    intros l2 l1 Hsorted a b Ha Hb.
    induction l1 as [|x l1 IH]; [by apply not_elem_of_nil in Ha|].
    apply StronglySorted_inv in Hsorted as [Hrest Hall].
    apply elem_of_cons in Ha as [->|Ha]; [|by apply IH].
    rewrite Forall_forall in Hall. apply Hall, elem_of_app. by right.
  - rewrite length_drop. by rewrite Hperm.
Qed.

(** X8: the analysis endpoint answers a request without code, or with the
    empty code, with the error "Code is required"; otherwise it reports as
    relevant matches the number of suggestions it returns, which is at most
    5 and at most the number of snippets. *)
Theorem analyzeRoute_counts (code0 : option string) (snippets : list Snippet) :
  match Server.analyzeRoute code0 snippets with
  | Server.BadRequest msg =>
      msg = "Code is required" ∧ (code0 = None ∨ code0 = Some EmptyString)
  | Server.Ok suggestions analysis =>
      (exists c, code0 = Some c ∧ c <> EmptyString
                 ∧ suggestions = Server.analyzeSimilarity c snippets)
      ∧ Server.relevantMatches analysis = length suggestions
      ∧ Server.totalSnippets analysis = length snippets
      ∧ (Server.relevantMatches analysis <= 5)%nat
      ∧ (Server.relevantMatches analysis <= Server.totalSnippets analysis)%nat
  end.
Proof.
  destruct code0 as [[|ch c]|]; simpl; [by auto| |by auto].
  split_and!; [by eexists|done|done| |].
  - unfold Server.analyzeSimilarity, JS.slice0. rewrite length_take. lia.
  - unfold Server.analyzeSimilarity, JS.slice0.
    rewrite length_take, (Permutation_length (sort_perm _ _)).
    assert (length (Server.collect (String ch c) snippets) <= length snippets)%nat;
      [|lia].
    rewrite <- (length_fmap snippet), collect_snippets. apply length_filter.
Qed.

(** ** The tokenizers *)

Lemma lowerChar_not_upper (c : ascii) : JS.between 65 90 (JS.lowerChar c) = false.
Proof. destruct c as [[] [] [] [] [] [] [] []]; reflexivity. Qed.

Lemma lowerChar_idem (c : ascii) : JS.lowerChar (JS.lowerChar c) = JS.lowerChar c.
Proof. destruct c as [[] [] [] [] [] [] [] []]; reflexivity. Qed.

Lemma toLowerCase_idem (s : string) : JS.toLowerCase (JS.toLowerCase s) = JS.toLowerCase s.
Proof.
  induction s as [|c s IH]; simpl; [done|]. by rewrite lowerChar_idem, IH.
Qed.

Lemma toLowerCase_not_upper (s : string) :
  allChars (fun c => negb (JS.between 65 90 c)) (JS.toLowerCase s) = true.
Proof.
  induction s as [|c s IH]; simpl; [done|]. by rewrite lowerChar_not_upper, IH.
Qed.

(** The pieces of a split hold no separator and only characters of the
    subject. *)
Lemma splitOn_pieces (sep p : ascii -> bool) (s : string) :
  allChars p s = true ->
  Forall (fun t => allChars p t = true ∧ allChars (fun c => negb (sep c)) t = true)
         (JS.splitOn sep s).
Proof.
  induction s as [|c s IH]; simpl.
  - intros _. by repeat constructor.
  - intros [Hc Hs]%andb_true_iff. specialize (IH Hs).
    destruct (sep c) eqn:Hsep; [by constructor|].
    destruct (JS.splitOn sep s) as [|t ts]; simpl.
    + repeat constructor; simpl; by rewrite ?Hc, ?Hsep.
    + apply Forall_cons in IH as [[Ht1 Ht2] Hts].
      constructor; [|done]. simpl. by rewrite Hc, Hsep, Ht1, Ht2.
Qed.

Lemma allChars_and (p1 p2 : ascii -> bool) (s : string) :
  allChars p1 s = true -> allChars p2 s = true ->
  allChars (fun c => p1 c && p2 c) s = true.
Proof.
  induction s as [|c s IH]; simpl; [done|].
  intros [-> H1]%andb_true_iff [-> H2]%andb_true_iff. by rewrite IH.
Qed.

Lemma allChars_impl (p1 p2 : ascii -> bool) (s : string) :
  (forall c, p1 c = true -> p2 c = true) ->
  allChars p1 s = true -> allChars p2 s = true.
Proof.
  intros Himp. induction s as [|c s IH]; simpl; [done|].
  intros [H1 H2]%andb_true_iff. by rewrite (Himp c H1), IH.
Qed.

Lemma split_lowercase_pieces (code0 : string) :
  Forall (fun t => allChars isLowerWord t = true)
         (JS.splitOn (fun c => negb (JS.isWord c)) (JS.toLowerCase code0)).
Proof.
  eapply Forall_impl; [apply splitOn_pieces, toLowerCase_not_upper|].
  intros t [H1 H2]. unfold isLowerWord.
  apply allChars_and; [|done].
  eapply allChars_impl; [|exact H2]. intros c. simpl. by rewrite negb_involutive.
Qed.

(** X9: every token of the server's tokenizer has at least 3 characters,
    all of them among a-z, 0-9 and the underscore, and is none of the twelve
    stop words. *)
Theorem tokens_are_lowercase_words (code0 t : string) :
  t ∈ Server.tokenizeCode code0 ->
  (3 <= String.length t)%nat
  ∧ allChars isLowerWord t = true
  ∧ t ∉ Server.stoplist.
Proof.
  unfold Server.tokenizeCode.
  intros (Hstop & (Hlen & Ht)%list_elem_of_filter)%list_elem_of_filter.
  split_and!; [lia| |done].
  pose proof (split_lowercase_pieces code0) as H.
  rewrite Forall_forall in H. by apply H.
Qed.

Lemma tokens_are_lowercase_words_witness :
  "total_1" ∈ Server.tokenizeCode "return Total_1 + x;"
  ∧ (3 <= String.length "total_1")%nat
  ∧ allChars isLowerWord "total_1" = true
  ∧ "total_1" ∉ Server.stoplist.
Proof.
  assert ("total_1" ∈ Server.tokenizeCode "return Total_1 + x;") as Hin
    by (vm_compute; left).
  split; [exact Hin|].
  exact (tokens_are_lowercase_words "return Total_1 + x;" "total_1" Hin).
Defined.

Lemma remove_digits (prev : option ascii) (s : string) :
  allChars (fun c => negb (JS.isDigit c))
    (JS.replaceFrom Renderer.matchDigit EmptyString 0 prev s) = true.
Proof.
  revert prev. induction s as [|c s IH]; intros prev; [done|].
  cbn [JS.replaceFrom Renderer.matchDigit].
  destruct (JS.isDigit c) eqn:Hc.
  - apply IH.
  - cbn [allChars]. by rewrite Hc, IH.
Qed.

(** X10: every token of the renderer's tokenizer has at least 2
    characters, all of them among a-z and the underscore: it holds no
    digit. *)
Theorem local_tokens_hold_no_digit (code0 t : string) :
  t ∈ Renderer.tokenizeCode code0 ->
  (2 <= String.length t)%nat ∧ allChars isLowerLetter t = true.
Proof.
  unfold Renderer.tokenizeCode.
  intros (Hlen & (t0 & -> & (_ & Ht0)%list_elem_of_filter)%list_elem_of_fmap)
    %list_elem_of_filter.
  split; [lia|]. unfold isLowerLetter.
  apply allChars_and; [|apply remove_digits].
  apply replaceFrom_allChars; [done|].
  pose proof (split_lowercase_pieces code0) as H.
  rewrite Forall_forall in H. by apply H.
Qed.

Lemma local_tokens_hold_no_digit_witness :
  "abc" ∈ Renderer.tokenizeCode "let abc123 = 1;"
  ∧ (2 <= String.length "abc")%nat ∧ allChars isLowerLetter "abc" = true.
Proof.
  assert ("abc" ∈ Renderer.tokenizeCode "let abc123 = 1;") as Hin
    by (vm_compute; left).
  split; [exact Hin|].
  exact (local_tokens_hold_no_digit "let abc123 = 1;" "abc" Hin).
Defined.

(** X11: lower-casing a code beforehand changes none of the scores and
    not the fingerprint: the tokenizers, the fingerprint and the line
    similarity see the lower-cased text only. *)
Theorem lowercasing_changes_nothing (code1 code2 : string) :
  Server.calculateSimilarity (JS.toLowerCase code1) code2
  = Server.calculateSimilarity code1 code2
  ∧ Renderer.calculateCodeSimilarity (JS.toLowerCase code1) code2
    = Renderer.calculateCodeSimilarity code1 code2
  ∧ Extension.generateCodeHash (JS.toLowerCase code1) = Extension.generateCodeHash code1
  ∧ Extension.calculateCodeSimilarity (JS.toLowerCase code1) code2
    = Extension.calculateCodeSimilarity code1 code2.
Proof.
  split_and!.
  - unfold Server.calculateSimilarity, Server.tokenizeCode.
    by rewrite toLowerCase_idem.
  - unfold Renderer.calculateCodeSimilarity, Renderer.tokenizeCode.
    by rewrite toLowerCase_idem.
  - unfold Extension.generateCodeHash, Extension.hashNormalized, Extension.stripComments.
    by rewrite toLowerCase_idem.
  - unfold Extension.calculateCodeSimilarity, Extension.normalizeCode,
      Extension.stripComments.
    by rewrite toLowerCase_idem.
Qed.

(** ** The local fallback, continued *)

(** X12: the renderer's score is symmetric, lies between 0 and 1, and is
    1 exactly for two codes with the same tokens, at least one. *)
Theorem local_similarity_is_jaccard (code1 code2 : string) :
  Renderer.calculateCodeSimilarity code1 code2
  = Renderer.calculateCodeSimilarity code2 code1
  ∧ (0 <= Renderer.calculateCodeSimilarity code1 code2 <= 1)%Q
  ∧ ((Renderer.calculateCodeSimilarity code1 code2 == 0)%Q
     <-> forall t, t ∈ Renderer.tokenizeCode code1 -> t ∉ Renderer.tokenizeCode code2)
  ∧ ((Renderer.calculateCodeSimilarity code1 code2 == 1)%Q
     <-> Renderer.tokenizeCode code1 <> []
         ∧ forall t, t ∈ Renderer.tokenizeCode code1 <-> t ∈ Renderer.tokenizeCode code2).
Proof.
  rewrite !local_similarity_jaccard. split_and!.
  - apply jaccard_sym.
  - apply jaccard_range.
  - apply jaccard_range.
  - apply jaccard_zero.
  - apply jaccard_one.
Qed.

Lemma local_collect_nonempty code0 snippets :
  Renderer.collect code0 snippets <> []
  <-> exists s, s ∈ snippets
                ∧ (3 # 10 < Renderer.calculateCodeSimilarity code0 (code s))%Q.
Proof.
  induction snippets as [|s snippets IH]; cbn [Renderer.collect].
  - split; [done|]. intros (s & Hs & _). by apply not_elem_of_nil in Hs.
  - destruct (JS.gt _ _) eqn:E.
    + apply gt_spec in E. split; [|done]. intros _. exists s. split; [by left|done].
    + apply gt_false in E. rewrite IH. split.
      * intros (s' & Hs' & Hlt). exists s'. split; [by right|done].
      * intros (s' & [->|Hs']%elem_of_cons & Hlt).
        -- by apply Qle_not_lt in E.
        -- by exists s'.
Qed.

(** X13: the local fallback opens the suggestion panel exactly when some
    cached snippet scores above 0.3 against the code, and then it shows at
    least one suggestion. *)
Theorem local_panel_opens_iff (snippets : list Snippet) (code0 : string) :
  (Renderer.showAIPanel (Renderer.performLocalAnalysis snippets code0) = true
   <-> exists s, s ∈ snippets
                 ∧ (3 # 10 < Renderer.calculateCodeSimilarity code0 (code s))%Q)
  ∧ (Renderer.showAIPanel (Renderer.performLocalAnalysis snippets code0) = true
     <-> Renderer.aiSuggestions (Renderer.performLocalAnalysis snippets code0) <> []).
Proof.
  cbn [Renderer.performLocalAnalysis Renderer.showAIPanel Renderer.aiSuggestions].
  rewrite (Permutation_length (sort_perm _ _)), <- local_collect_nonempty.
  pose proof (sort_perm Renderer.byConfidenceDesc (Renderer.collect code0 snippets))
    as Hperm.
  unfold JS.slice0.
  destruct (Renderer.collect code0 snippets) as [|a l] eqn:Hc.
  - apply Permutation_nil_r in Hperm. rewrite Hperm. simpl. split; split; done.
  - destruct (JS.sort _ _) as [|b l']; [by apply Permutation_nil_cons in Hperm|].
    simpl. split; split; done.
Qed.

(** ** The renderer's tag toggle and snippet filter *)

(** X14: toggling a tag flips whether that tag is among the tags, leaves
    every other tag as it is and introduces no duplicate; toggling it twice
    gives the same tags again, and the very same list when the tag was
    absent. *)
Theorem tag_toggle_flips_membership (tags0 : list string) (tag : string) :
  (tag ∈ Renderer.handleTagToggle tags0 tag <-> tag ∉ tags0)
  ∧ (forall t, t <> tag -> (t ∈ Renderer.handleTagToggle tags0 tag <-> t ∈ tags0))
  ∧ (NoDup tags0 -> NoDup (Renderer.handleTagToggle tags0 tag))
  ∧ (forall t, t ∈ Renderer.handleTagToggle (Renderer.handleTagToggle tags0 tag) tag
               <-> t ∈ tags0)
  ∧ (tag ∉ tags0 ->
     Renderer.handleTagToggle (Renderer.handleTagToggle tags0 tag) tag = tags0).
Proof.
  assert (forall l, tag ∉ l -> Renderer.handleTagToggle l tag = l ++ [tag]) as Hadd.
  { intros l Hl. unfold Renderer.handleTagToggle, JS.has.
    by rewrite bool_decide_eq_false_2. }
  assert (forall l, tag ∈ l ->
            Renderer.handleTagToggle l tag = filter (fun t => t <> tag) l) as Hdel.
  { intros l Hl. unfold Renderer.handleTagToggle, JS.has.
    by rewrite bool_decide_eq_true_2. }
  assert (forall l : list string, tag ∉ l -> filter (fun t => t <> tag) l = l) as Hid.
  { intros l Hl. induction l as [|x l IH]; [done|].
    apply not_elem_of_cons in Hl as [Hx Hl].
    rewrite filter_cons, decide_True by done. by rewrite IH. }
  assert (tag ∉ filter (fun t => t <> tag) tags0) as Hgone.
  { rewrite list_elem_of_filter. tauto. }
  destruct (decide (tag ∈ tags0)) as [Hin|Hout].
  - rewrite (Hdel _ Hin), (Hadd _ Hgone). split_and!.
    + tauto.
    + intros t Ht. rewrite list_elem_of_filter. tauto.
    + apply NoDup_filter.
    + intros t. rewrite elem_of_app, list_elem_of_filter, list_elem_of_singleton.
      destruct (decide (t = tag)) as [->|]; tauto.
    + done.
  - rewrite (Hadd _ Hout).
    assert (tag ∈ tags0 ++ [tag]) as Hnow.
    { apply elem_of_app. right. by apply list_elem_of_singleton. }
    rewrite (Hdel _ Hnow), filter_app, (Hid _ Hout), filter_cons, filter_nil.
    rewrite decide_False by congruence. rewrite app_nil_r. split_and!.
    + tauto.
    + intros t Ht. rewrite elem_of_app, list_elem_of_singleton. tauto.
    + intros Hnd. apply NoDup_app. split_and!; [done| |apply NoDup_singleton].
      intros x Hx ->%list_elem_of_singleton. done.
    + done.
    + done.
Qed.

Lemma filterSnippets_elem (snippets : list Snippet) (query lang tag : string)
    (s : Snippet) :
  s ∈ Renderer.filterSnippets snippets query lang tag
  <-> s ∈ snippets
      ∧ (query = EmptyString ∨ Renderer.matchesQuery query s = true)
      ∧ (lang = "all" ∨ language s = lang)
      ∧ (tag = "all" ∨ tag ∈ tags s).
Proof.
  unfold Renderer.filterSnippets. cbv zeta.
  destruct (String.eqb_spec query EmptyString) as [->|Hq];
    destruct (String.eqb_spec lang "all") as [->|Hl];
    destruct (String.eqb_spec tag "all") as [->|Ht]; simpl;
    rewrite ?list_elem_of_filter; rewrite ?Is_true_true; tauto.
Qed.

(** X15: the snippet filter keeps the snippets in their order, keeps
    exactly those that pass the text query (when there is one), the language
    (unless it is "all") and the tag (unless it is "all"), and filtering the
    result again with the same settings changes nothing. *)
Theorem filterSnippets_conjunction (snippets : list Snippet) (query lang tag : string) :
  Renderer.filterSnippets snippets query lang tag `sublist_of` snippets
  ∧ (forall s, s ∈ Renderer.filterSnippets snippets query lang tag
               <-> s ∈ snippets
                   ∧ (query = EmptyString ∨ Renderer.matchesQuery query s = true)
                   ∧ (lang = "all" ∨ language s = lang)
                   ∧ (tag = "all" ∨ tag ∈ tags s))
  ∧ Renderer.filterSnippets (Renderer.filterSnippets snippets query lang tag)
      query lang tag
    = Renderer.filterSnippets snippets query lang tag
  ∧ Renderer.filterSnippets snippets EmptyString "all" "all" = snippets.
Proof.
  split_and!.
  - unfold Renderer.filterSnippets. cbv zeta.
    repeat case_match; repeat (etransitivity; [apply sublist_filter|]); done.
  - intros s. apply filterSnippets_elem.
  - unfold Renderer.filterSnippets. cbv zeta.
    repeat case_match; try done;
      repeat (rewrite list_filter_filter);
      apply list_filter_iff; intros s; tauto.
  - done.
Qed.

(** ** The fingerprint *)

Lemma toInt32_congr (z : Z) : (2 ^ 32 | Extension.toInt32 z - z)%Z.
Proof.
  unfold Extension.toInt32.
  pose proof (Z.div_mod z (2 ^ 32)) as Hdm.
  destruct (Z.ltb_spec (z mod 2 ^ 32) (2 ^ 31)).
  - exists (- (z / 2 ^ 32))%Z. lia.
  - exists (- (z / 2 ^ 32) - 1)%Z. lia.
Qed.

Lemma toInt32_eq (a b : Z) : (2 ^ 32 | a - b)%Z -> Extension.toInt32 a = Extension.toInt32 b.
Proof.
  intros [k Hk]. unfold Extension.toInt32.
  replace a with (b + k * 2 ^ 32)%Z by lia. by rewrite Z_mod_plus_full.
Qed.

Lemma toInt32_id (z : Z) : (- 2 ^ 31 <= z < 2 ^ 31)%Z -> Extension.toInt32 z = z.
Proof.
  intros Hz. unfold Extension.toInt32.
  destruct (Z.ltb_spec (z mod 2 ^ 32) (2 ^ 31)) as [Hlt|Hge].
  - destruct (Z.neg_nonneg_cases z) as [Hneg|Hpos].
    + replace z with (z + 2 ^ 32 + (-1) * 2 ^ 32)%Z in Hlt at 1 by lia.
      rewrite Z_mod_plus_full, Z.mod_small in Hlt by lia. lia.
    + apply Z.mod_small. lia.
  - destruct (Z.neg_nonneg_cases z) as [Hneg|Hpos].
    + replace z with (z + 2 ^ 32 + (-1) * 2 ^ 32)%Z at 1 by lia.
      rewrite Z_mod_plus_full, Z.mod_small by lia. lia.
    + rewrite Z.mod_small in Hge by lia. lia.
Qed.

Lemma poly31_congr (a b : Z) (s : string) :
  (2 ^ 32 | a - b)%Z -> (2 ^ 32 | poly31 a s - poly31 b s)%Z.
Proof.
  revert a b. induction s as [|c s IH]; intros a b Hab; simpl; [done|].
  apply IH. destruct Hab as [k Hk]. exists (31 * k)%Z. lia.
Qed.

Lemma hashLoop_poly31 (h : Z) (s : string) :
  (- 2 ^ 31 <= h < 2 ^ 31)%Z ->
  Extension.hashLoop h s = Extension.toInt32 (poly31 h s).
Proof.
  revert h. induction s as [|c s IH]; intros h Hh; simpl.
  - by rewrite toInt32_id.
  - rewrite IH by apply toInt32_range.
    apply toInt32_eq, poly31_congr.
    destruct (toInt32_congr (Extension.toInt32 (h * 2 ^ 5) - h + Z.of_N (JS.code c)))
      as [k1 Hk1].
    destruct (toInt32_congr (h * 2 ^ 5)) as [k2 Hk2].
    exists (k1 + k2)%Z. lia.
Qed.

(** X16: the hash under the fingerprint is the multiplier-31 string hash
    of the code units, wrapped to a signed 32-bit integer: the shifts and
    the two wrap-arounds of every round lose nothing. *)
Theorem simpleHash_is_polynomial (str : string) :
  Extension.hashLoop 0 str = Extension.toInt32 (poly31 0 str)
  ∧ Extension.simpleHash str
    = Extension.toString36 (Z.abs (Extension.toInt32 (poly31 0 str))).
Proof.
  assert (Extension.hashLoop 0 str = Extension.toInt32 (poly31 0 str)) as H
    by (apply hashLoop_poly31; lia).
  split; [done|]. unfold Extension.simpleHash. by rewrite H.
Qed.

Lemma digit36_base36 (d : Z) : (0 <= d < 36)%Z -> isBase36 (Extension.digit36 d) = true.
Proof.
  intros Hd. unfold isBase36, Extension.digit36, JS.isDigit, JS.between, JS.code.
  destruct (Z.ltb_spec d 10).
  - rewrite N_ascii_embedding by lia.
    apply orb_true_iff. left. apply andb_true_iff. split; apply N.leb_le; lia.
  - rewrite N_ascii_embedding by lia.
    apply orb_true_iff. right. apply andb_true_iff. split; apply N.leb_le; lia.
Qed.

Lemma radix36_base36 (fuel : nat) (n : Z) (acc : string) :
  (0 <= n)%Z -> allChars isBase36 acc = true ->
  allChars isBase36 (Extension.radix36 fuel n acc) = true.
Proof.
  revert n acc. induction fuel as [|fuel IH]; intros n acc Hn Hacc; simpl; [done|].
  assert (allChars isBase36 (String (Extension.digit36 (n mod 36)) acc) = true) as Hacc'.
  { simpl. rewrite Hacc, digit36_base36; [done|]. apply Z.mod_pos_bound. lia. }
  destruct (n <? 36)%Z; [done|]. apply IH; [|done]. apply Z.div_pos; lia.
Qed.

Lemma radix36_grows (fuel : nat) (n : Z) (acc : string) :
  (String.length acc <= String.length (Extension.radix36 fuel n acc))%nat.
Proof.
  revert n acc. induction fuel as [|fuel IH]; intros n acc; simpl; [lia|].
  destruct (n <? 36)%Z; [simpl; lia|].
  etransitivity; [|apply IH]. simpl. lia.
Qed.

(** X17: a fingerprint is a string of 1 to 6 characters, each a digit or
    a lower-case letter a-z. *)
Theorem fingerprint_shape (code0 : string) :
  (1 <= String.length (Extension.generateCodeHash code0) <= 6)%nat
  ∧ allChars isBase36 (Extension.generateCodeHash code0) = true.
Proof.
  split_and!.
  - unfold Extension.generateCodeHash, Extension.simpleHash, Extension.toString36.
    cbn [Extension.radix36]. destruct (_ <? 36)%Z; [simpl; lia|].
    etransitivity; [|apply radix36_grows]. simpl. lia.
  - apply generateCodeHash_length.
  - unfold Extension.generateCodeHash, Extension.simpleHash, Extension.toString36.
    apply radix36_base36; [lia|done].
Qed.

Lemma remove_spaces_no_space skip prev s :
  allChars (fun c => negb (JS.isSpace c))
    (JS.replaceFrom JS.matchSpaces EmptyString skip prev s) = true.
Proof.
  revert skip prev. induction s as [|c s IH]; intros skip prev; [done|].
  cbn [JS.replaceFrom]. destruct skip as [|k]; [|by apply IH].
  rewrite matchSpaces_cons. destruct (JS.isSpace c) eqn:Hc.
  - by rewrite allChars_app, IH.
  - cbn [allChars]. by rewrite Hc, IH.
Qed.

(** X18: the text that is hashed holds no whitespace character of any
    kind. *)
Theorem hashNormalized_has_no_whitespace (code0 : string) :
  allChars (fun c => negb (JS.isSpace c)) (Extension.hashNormalized code0) = true.
Proof.
  unfold Extension.hashNormalized, Extension.normalizeLiterals, JS.replaceAll.
  do 3 (apply replaceFrom_allChars; [reflexivity|]).
  apply remove_spaces_no_space.
Qed.

(** ** The duplicate guard, continued *)

Lemma codeLines_normalized (code0 : string) :
  Extension.codeLines (Extension.normalizeCode code0)
  = if decide (5 < String.length (Extension.normalizeCode code0))%nat
    then [Extension.normalizeCode code0] else [].
Proof.
  unfold Extension.codeLines.
  rewrite splitOn_no_separator by apply normalizeCode_no_newline.
  rewrite filter_cons, filter_nil. by case_decide.
Qed.

Lemma line_similarity_threshold (code1 code2 : string) :
  JS.gt (Extension.calculateCodeSimilarity code1 code2) (8 # 10) = true
  <-> Extension.normalizeCode code1 = Extension.normalizeCode code2
      ∧ (5 < String.length (Extension.normalizeCode code1))%nat.
Proof.
  unfold Extension.calculateCodeSimilarity. cbv zeta.
  rewrite !codeLines_normalized.
  generalize (Extension.normalizeCode code1) (Extension.normalizeCode code2).
  intros a b.
  destruct (decide (5 < String.length a)%nat) as [Ha|Ha];
    destruct (decide (5 < String.length b)%nat) as [Hb|Hb].
  - rewrite filter_cons, filter_nil. cbn [app].
    rewrite !mkSet_cons, mkSet_nil, !filter_cons, !filter_nil. unfold JS.has.
    destruct (decide (a = b)) as [->|Hab].
    + rewrite decide_False by congruence.
      rewrite decide_True by (apply bool_decide_spec; left). by split.
    + rewrite decide_True by congruence.
      rewrite decide_False;
        [|rewrite bool_decide_spec; by intros ->%list_elem_of_singleton].
      split; [done|]. by intros [? _].
  - split; [done|]. intros [-> _]. lia.
  - split; [done|]. intros [_ ?]. lia.
  - split; [done|]. intros [_ ?]. lia.
Qed.

(** X19: the line similarity passes the 0.8 threshold exactly when the
    two normalized texts are equal and longer than 5 characters. *)
Theorem line_similarity_passes_iff_equal (code1 code2 : string) :
  JS.gt (Extension.calculateCodeSimilarity code1 code2) (8 # 10) = true
  <-> Extension.normalizeCode code1 = Extension.normalizeCode code2
      ∧ (5 < String.length (Extension.normalizeCode code1))%nat.
Proof. apply line_similarity_threshold. Qed.

Lemma inCache_true (code0 h : string) (cache : list Snippet) :
  Extension.inCache code0 h cache = true
  <-> exists s, s ∈ cache
        ∧ (h = Extension.generateCodeHash (code s)
           ∨ JS.gt (Extension.calculateCodeSimilarity code0 (code s)) (8 # 10) = true).
Proof.
  induction cache as [|s cache IH]; cbn [Extension.inCache].
  - split; [done|]. intros (s & Hs & _). by apply not_elem_of_nil in Hs.
  - destruct (String.eqb_spec h (Extension.generateCodeHash (code s))) as [Hh|Hh].
    { split; [|done]. intros _. exists s. split; [by left|by left]. }
    destruct (JS.gt (Extension.calculateCodeSimilarity code0 (code s)) (8 # 10)) eqn:Hg.
    { split; [|done]. intros _. exists s. split; [by left|by right]. }
    rewrite IH. split.
    + intros (s' & Hs' & H). exists s'. split; [by right|done].
    + intros (s' & [->|Hs']%elem_of_cons & H).
      * destruct H; [done|congruence].
      * by exists s'.
Qed.

(** X20: the guard declares a duplicate exactly when some cached snippet
    has the candidate's fingerprint, or the candidate's normalized text when
    that is longer than 5 characters, or when the server reports a
    suggestion with confidence above 0.8.  So the verdict does not depend on
    the order of the cache, and a candidate that is a duplicate stays one
    when the cache grows. *)
Theorem vault_verdict_characterized
    (code0 : string) (cache : list Snippet) (server : option (list AISuggestion)) :
  (Extension.isCodeAlreadyInVault code0 cache server = true
   <-> (exists s, s ∈ cache
          ∧ (Extension.generateCodeHash code0 = Extension.generateCodeHash (code s)
             ∨ (Extension.normalizeCode code0 = Extension.normalizeCode (code s)
                ∧ (5 < String.length (Extension.normalizeCode code0))%nat)))
       ∨ (exists suggestions a,
            server = Some suggestions ∧ a ∈ suggestions
            ∧ (8 # 10 < confidence a)%Q))
  ∧ (forall cache', cache ≡ₚ cache' ->
       Extension.isCodeAlreadyInVault code0 cache' server
       = Extension.isCodeAlreadyInVault code0 cache server)
  ∧ (forall cache', cache ⊆ cache' ->
       Extension.isCodeAlreadyInVault code0 cache server = true ->
       Extension.isCodeAlreadyInVault code0 cache' server = true).
Proof.
  assert (forall c : list Snippet,
    Extension.isCodeAlreadyInVault code0 c server = true
    <-> (exists s, s ∈ c
           ∧ (Extension.generateCodeHash code0 = Extension.generateCodeHash (code s)
              ∨ (Extension.normalizeCode code0 = Extension.normalizeCode (code s)
                 ∧ (5 < String.length (Extension.normalizeCode code0))%nat)))
        ∨ (exists suggestions a,
             server = Some suggestions ∧ a ∈ suggestions
             ∧ (8 # 10 < confidence a)%Q)) as Hchar.
  { intros c. unfold Extension.isCodeAlreadyInVault. cbv zeta.
    destruct (Extension.inCache code0 _ c) eqn:Hc.
    - split; [|done]. intros _. left.
      apply inCache_true in Hc as (s & Hs & H). exists s. split; [done|].
      destruct H as [H|H]; [by left|right]. by apply line_similarity_threshold.
    - assert (~ exists s, s ∈ c
           ∧ (Extension.generateCodeHash code0 = Extension.generateCodeHash (code s)
              ∨ (Extension.normalizeCode code0 = Extension.normalizeCode (code s)
                 ∧ (5 < String.length (Extension.normalizeCode code0))%nat))) as Hno.
      { intros (s & Hs & H).
        assert (Extension.inCache code0 (Extension.generateCodeHash code0) c = true);
          [|congruence].
        apply inCache_true. exists s. split; [done|].
        destruct H as [H|H]; [by left|right].
        by apply line_similarity_threshold. }
      destruct server as [suggestions|].
      + destruct (existsb _ suggestions) eqn:He.
        * split; [|done]. intros _. right.
          apply existsb_exists in He as (a & Ha & Hg).
          exists suggestions, a. split_and!; [done|by apply list_elem_of_In|].
          by apply gt_spec.
        * split; [done|]. intros [H|(l & a & Hl & Ha & Hlt)]; [by destruct Hno|].
          simplify_eq.
          assert (existsb (fun s => JS.gt (confidence s) (8 # 10)) l = true);
            [|congruence].
          apply existsb_exists. exists a. split; [by apply list_elem_of_In|].
          by apply gt_spec.
      + split; [done|]. intros [H|(l & a & Hl & _)]; [by destruct Hno|done]. }
  split_and!; [apply Hchar| |].
  - intros cache' Hperm. apply eq_true_iff_eq. rewrite !Hchar.
    by setoid_rewrite Hperm.
  - intros cache' Hsub. rewrite !Hchar.
    intros [(s & Hs & H)|H]; [left|by right]. exists s. split; [by apply Hsub|done].
Qed.

(** ** The recently-processed set, continued *)

Lemma timers_bounded_by_saves (evs : list Extension.Event) (st st' : Extension.State) :
  Extension.run evs st = Some st' ->
  (length (Extension.timers st') <= length (Extension.timers st) + countSaves evs)%nat.
Proof.
  revert st. induction evs as [|e evs IH]; intros st Hrun; simpl in Hrun.
  - simplify_eq. lia.
  - destruct (Extension.step e st) as [st1|] eqn:He; [|done].
    specialize (IH _ Hrun). unfold countSaves in *. rewrite filter_cons.
    destruct e as [d|i|code0|cache]; simpl in He.
    + destruct (0 <=? d)%Z; simplify_eq. rewrite decide_False by (simpl; tauto).
      simpl in IH. lia.
    + destruct (Extension.timers st !! i) as [[due h]|] eqn:Hi; [|done].
      destruct (due <=? Extension.now st)%Z; simplify_eq.
      rewrite decide_False by (simpl; tauto). simpl in IH.
      pose proof (length_delete (Extension.timers st) i (mk_is_Some _ _ Hi)). lia.
    + rewrite decide_True by done. simplify_eq.
      unfold Extension.saveSnippetToVault in IH.
      destruct (Extension.isDuplicateCode st _); simpl in IH |- *;
        rewrite ?length_app in IH; simpl in IH; lia.
    + simplify_eq. rewrite decide_False by (simpl; tauto). simpl in IH. lia.
Qed.

(** X21: in every state the extension reaches, the recently-processed
    set has as many fingerprints as there are pending callbacks, one for
    each, and never more than there were calls of [saveSnippetToVault]. *)
Theorem recent_set_size (evs : list Extension.Event) (st : Extension.State) :
  Extension.run evs Extension.initial = Some st ->
  size (Extension.recentlyProcessed st) = length (Extension.timers st)
  ∧ (size (Extension.recentlyProcessed st) <= countSaves evs)%nat
  ∧ NoDup (Extension.timers st).*2
  ∧ (forall h, h ∈ Extension.recentlyProcessed st
               <-> exists due, (due, h) ∈ Extension.timers st).
Proof.
  intros Hrun. pose proof (wellTimed_run _ _ Hrun) as [Hnd Hiff].
  assert (size (Extension.recentlyProcessed st) = length (Extension.timers st)) as Hsize.
  { rewrite <- (length_fmap snd). unfold size, set_size. simpl.
    apply Permutation_length, NoDup_Permutation; [apply NoDup_elements|done|].
    intros h. by rewrite elem_of_elements, Hiff. }
  split_and!; [done| |done|].
  - rewrite Hsize. pose proof (timers_bounded_by_saves _ _ _ Hrun) as H.
    simpl in H. lia.
  - intros h. rewrite Hiff, list_elem_of_fmap. split.
    + intros ([due h'] & -> & Hin). by exists due.
    + intros (due & Hin). by exists (due, h).
Qed.

Lemma recent_set_size_witness :
  let evs := [Extension.Save "const x = 1;"; Extension.Save "const   x=2;";
              Extension.Save "let y = 2;"; Extension.Tick 60000; Extension.Fire 0] in
  let st := default Extension.initial (Extension.run evs Extension.initial) in
  Extension.run evs Extension.initial = Some st
  ∧ size (Extension.recentlyProcessed st) = length (Extension.timers st)
  ∧ length (Extension.timers st) = 1%nat.
Proof.
  intros evs st.
  assert (Extension.run evs Extension.initial = Some st) as Hrun
    by (vm_compute; reflexivity).
  split; [exact Hrun|]. split; [|vm_compute; reflexivity].
  exact (proj1 (recent_set_size evs st Hrun)).
Defined.

Lemma timers_due_step e st st' :
  (forall due h, (due, h) ∈ Extension.timers st -> (due <= Extension.now st + 60000)%Z) ->
  Extension.step e st = Some st' ->
  forall due h, (due, h) ∈ Extension.timers st' -> (due <= Extension.now st' + 60000)%Z.
Proof.
  intros Hst Hstep. destruct e as [d|i|code0|cache]; simpl in Hstep.
  - destruct (0 <=? d)%Z eqn:Hd; simplify_eq. apply Z.leb_le in Hd. simpl.
    intros due h Hin. specialize (Hst _ _ Hin). lia.
  - destruct (Extension.timers st !! i) as [[due0 h0]|]; [|done].
    destruct (due0 <=? Extension.now st)%Z; simplify_eq. simpl.
    intros due h Hin. apply (Hst due h). by eapply list_elem_of_delete_inv.
  - unfold Extension.saveSnippetToVault in Hstep.
    destruct (Extension.isDuplicateCode st _); simplify_eq; [done|]. simpl.
    intros due h [Hin|Hin%list_elem_of_singleton]%elem_of_app.
    + by apply (Hst due h).
    + simplify_eq. lia.
  - simplify_eq. done.
Qed.

(** X22: in every state the extension reaches, each fingerprint of the
    recently-processed set has a pending callback that is due at most 60000
    ms from now: no fingerprint is set to stay longer than a minute. *)
Theorem recent_set_expires_within_a_minute
    (evs : list Extension.Event) (st : Extension.State) (h : string) :
  Extension.run evs Extension.initial = Some st ->
  h ∈ Extension.recentlyProcessed st ->
  exists i due,
    Extension.timers st !! i = Some (due, h)
    ∧ (due <= Extension.now st + 60000)%Z.
Proof.
  intros Hrun Hh.
  pose proof (wellTimed_run _ _ Hrun) as [_ Hiff].
  apply Hiff, list_elem_of_fmap in Hh as ([due h'] & -> & Hin).
  assert (forall due h, (due, h) ∈ Extension.timers st
                        -> (due <= Extension.now st + 60000)%Z) as Hdue.
  { revert Hrun.
    apply (run_invariant (fun s => forall due h, (due, h) ∈ Extension.timers s
                                      -> (due <= Extension.now s + 60000)%Z)).
    - intros e s s'. apply timers_due_step.
    - intros due0 h0 Hin'. simpl in Hin'. by apply not_elem_of_nil in Hin'. }
  pose proof (Hdue _ _ Hin) as Hle.
  apply list_elem_of_lookup in Hin as [i Hi]. by exists i, due.
Qed.

Lemma recent_set_expires_within_a_minute_witness :
  let evs := [Extension.Tick 500; Extension.Save "const x = 1;"; Extension.Tick 1000] in
  let st := default Extension.initial (Extension.run evs Extension.initial) in
  Extension.run evs Extension.initial = Some st
  ∧ Extension.generateCodeHash "const x = 1;" ∈ Extension.recentlyProcessed st
  ∧ exists i due,
      Extension.timers st !! i = Some (due, Extension.generateCodeHash "const x = 1;")
      ∧ (due <= Extension.now st + 60000)%Z.
Proof.
  intros evs st.
  assert (Extension.run evs Extension.initial = Some st) as Hrun
    by (vm_compute; reflexivity).
  assert (Extension.generateCodeHash "const x = 1;" ∈ Extension.recentlyProcessed st)
    as Hin by (apply isDuplicateCode_spec; vm_compute; reflexivity).
  split; [exact Hrun|]. split; [exact Hin|].
  exact (recent_set_expires_within_a_minute evs st _ Hrun Hin).
Defined.

(** X23: a selection of at most 20 characters and a file of at most 100
    characters are not captured at all; for longer texts, in every state the
    extension reaches, the capture is never skipped by the pre-save lookup of
    the text itself: it ends as "already in vault", as "recently captured"
    inside the save, or with the snippet sent. *)
Theorem captures_never_skipped_before_save
    (evs : list Extension.Event) (st : Extension.State)
    (codeToCapture : string) (vault : bool) :
  Extension.run evs Extension.initial = Some st ->
  ((String.length codeToCapture <= 20)%nat ->
   Extension.captureSelectionOnly codeToCapture vault st = None)
  ∧ ((String.length codeToCapture <= 100)%nat ->
     Extension.captureEntireFile codeToCapture vault st = None)
  ∧ (forall r, Extension.captureSelectionOnly codeToCapture vault st = Some r ->
               snd r <> Extension.SkippedRecent)
  ∧ (forall r, Extension.captureEntireFile codeToCapture vault st = Some r ->
               snd r <> Extension.SkippedRecent).
Proof.
  intros Hrun.
  assert ((6 < String.length codeToCapture)%nat ->
          snd (Extension.processCodeCapture codeToCapture vault st)
          <> Extension.SkippedRecent) as Hlong.
  { intros Hlen. unfold Extension.processCodeCapture.
    destruct vault; [done|].
    assert (Extension.isDuplicateCode st codeToCapture = false) as ->.
    { apply isDuplicateCode_false. intros Hin.
      destruct (holdsFingerprints_run _ _ Hrun _ Hin) as [c ->].
      pose proof (generateCodeHash_length c). lia. }
    simpl. unfold Extension.saveSnippetToVault.
    by destruct (Extension.isDuplicateCode st _). }
  unfold Extension.captureSelectionOnly, Extension.captureEntireFile.
  split_and!.
  - intros Hlen. apply Nat.ltb_ge in Hlen. by rewrite Hlen, andb_false_r.
  - intros Hlen. apply Nat.ltb_ge in Hlen. by rewrite Hlen, andb_false_r.
  - intros r. destruct (20 <? String.length codeToCapture)%nat eqn:Hlen;
      [|by rewrite andb_false_r].
    apply Nat.ltb_lt in Hlen. destruct (negb _); [|done].
    intros [= <-]. apply Hlong. lia.
  - intros r. destruct (100 <? String.length codeToCapture)%nat eqn:Hlen;
      [|by rewrite andb_false_r].
    apply Nat.ltb_lt in Hlen. destruct (negb _); [|done].
    intros [= <-]. apply Hlong. lia.
Qed.

Lemma captures_never_skipped_before_save_witness :
  let evs := [Extension.Save "const total = items.length;"] in
  let st := default Extension.initial (Extension.run evs Extension.initial) in
  Extension.run evs Extension.initial = Some st
  ∧ Extension.captureSelectionOnly "const total = items.length;" false st
    = Some (st, Extension.SkippedRecentlyCaptured)
  ∧ Extension.captureSelectionOnly "const x = 1;" false st = None.
Proof.
  intros evs st.
  assert (Extension.run evs Extension.initial = Some st) as Hrun
    by (vm_compute; reflexivity).
  split; [exact Hrun|]. split; [vm_compute; reflexivity|].
  apply (proj1 (captures_never_skipped_before_save evs st "const x = 1;" false Hrun)).
  simpl. lia.
Defined.

(** ** File names and titles *)

Lemma splitOn_nonempty (sep : ascii -> bool) (s : string) : JS.splitOn sep s <> [].
Proof.
  destruct s as [|c s]; simpl; [done|].
  destruct (sep c); [done|]. by destruct (JS.splitOn sep s).
Qed.

Lemma splitOn_app (sep : ascii -> bool) (a b : string) (c : ascii) :
  sep c = true ->
  JS.splitOn sep (a +:+ String c b) = JS.splitOn sep a ++ JS.splitOn sep b.
Proof.
  intros Hc. induction a as [|x a IH]; simpl.
  - by rewrite Hc.
  - destruct (sep x); [by rewrite IH|]. rewrite IH.
    pose proof (splitOn_nonempty sep a) as Hne.
    by destruct (JS.splitOn sep a).
Qed.

Lemma splitOn_whole (sep : ascii -> bool) (s : string) :
  allChars (fun c => negb (sep c)) s = true -> JS.splitOn sep s = [s].
Proof.
  induction s as [|c s IH]; simpl; [done|].
  intros [Hc Hs]%andb_true_iff. apply negb_true_iff in Hc. by rewrite Hc, IH.
Qed.

Lemma last_splitOn (sep : ascii -> bool) (s : string) :
  exists t, last (JS.splitOn sep s) = Some t
            ∧ allChars (fun c => negb (sep c)) t = true.
Proof.
  pose proof (splitOn_pieces sep (fun _ => true) s) as H.
  assert (allChars (fun _ => true) s = true) as Hs.
  { clear H. induction s as [|c s IH]; simpl; done. }
  specialize (H Hs). pose proof (splitOn_nonempty sep s) as Hne.
  destruct (last (JS.splitOn sep s)) as [t|] eqn:Hl.
  - exists t. split; [done|].
    apply last_Some in Hl as [l' Hl]. rewrite Hl in H.
    by apply Forall_app in H as [_ [[_ ?] _]%Forall_cons].
  - by apply last_None in Hl.
Qed.

Lemma last_app_nonempty {A} (l1 l2 : list A) : l2 <> [] -> last (l1 ++ l2) = last l2.
Proof.
  intros Hne. destruct l2 as [|x l2 _] using rev_ind; [done|].
  by rewrite app_assoc, !last_snoc.
Qed.

Lemma allChars_weaken (p1 p2 : ascii -> bool) (s : string) :
  allChars (fun c => p1 c && p2 c) s = true ->
  allChars p1 s = true ∧ allChars p2 s = true.
Proof.
  induction s as [|c s IH]; simpl; [done|].
  intros [[H1 H2]%andb_true_iff [? ?]%IH]%andb_true_iff.
  by rewrite H1, H2.
Qed.

(** X24: the file name taken from a path is never empty and holds
    neither a slash nor a backslash; for a path that ends in a slash and a
    name free of both, it is that name, and for a path that ends in a slash it
    is "untitled". *)
Theorem getFileName_is_a_base_name (fileName dir name : string) :
  (Extension.getFileName fileName <> EmptyString
   ∧ allChars notSeparator (Extension.getFileName fileName) = true)
  ∧ (name <> EmptyString -> allChars notSeparator name = true ->
     Extension.getFileName (dir +:+ String "/" name) = name)
  ∧ Extension.getFileName (dir +:+ String "/" EmptyString) = "untitled".
Proof.
  split; [|split].
  - unfold Extension.getFileName, JS.pop.
    destruct (last_splitOn (Ascii.eqb "/") fileName) as (seg & -> & Hseg).
    destruct (last_splitOn (Ascii.eqb "\") seg) as (n & Hn & Hn2).
    pose proof (splitOn_pieces (Ascii.eqb "\") (fun c => negb (Ascii.eqb "/" c)) seg
                  Hseg) as Hp.
    apply last_Some in Hn as Hn'. destruct Hn' as [l' Hl']. rewrite Hl' in Hp.
    apply Forall_app in Hp as [_ [[Hn1 _] _]%Forall_cons].
    rewrite Hn. destruct n as [|c n]; [done|]. split; [done|].
    unfold notSeparator. by apply allChars_and.
  - intros Hne Hname. apply allChars_weaken in Hname as [H1 H2].
    unfold Extension.getFileName, JS.pop.
    rewrite splitOn_app by done.
    rewrite last_app_nonempty by apply splitOn_nonempty.
    rewrite (splitOn_whole _ name) by done. cbn [last].
    rewrite (splitOn_whole _ name) by done. cbn [last].
    by destruct name.
  - unfold Extension.getFileName, JS.pop.
    rewrite splitOn_app by done.
    by rewrite last_app_nonempty by apply splitOn_nonempty.
Qed.

Lemma getFileName_is_a_base_name_witness :
  "app.ts" <> EmptyString
  ∧ allChars notSeparator "app.ts" = true
  ∧ Extension.getFileName ("/home/user/src" +:+ String "/" "app.ts") = "app.ts".
Proof.
  assert ("app.ts" <> EmptyString) as Hne by discriminate.
  assert (allChars notSeparator "app.ts" = true) as Hname by reflexivity.
  split; [exact Hne|]. split; [exact Hname|].
  exact (proj1 (proj2 (getFileName_is_a_base_name EmptyString "/home/user/src" "app.ts"))
           Hne Hname).
Defined.

Lemma isPrefix_app (pat s : string) : JS.isPrefix pat (pat +:+ s) = true.
Proof. induction pat as [|c pat IH]; simpl; [done|]. by rewrite Ascii.eqb_refl, IH. Qed.

Lemma dropChars_app (pat s : string) : JS.dropChars (String.length pat) (pat +:+ s) = s.
Proof. induction pat as [|c pat IH]; simpl; [by destruct s|done]. Qed.

Lemma replaceFirst_absent (pat rep s : string) :
  JS.includes s pat = false -> JS.replaceFirst pat rep s = s.
Proof.
  induction s as [|c s IH]; simpl.
  - intros [-> _]%orb_false_iff. done.
  - intros [-> Hs]%orb_false_iff. by rewrite IH.
Qed.

Lemma replaceFirst_prefix (pat s : string) :
  JS.replaceFirst pat EmptyString (pat +:+ s) = s.
Proof.
  destruct (pat +:+ s) as [|c r] eqn:E; simpl.
  - pose proof (isPrefix_app pat s) as Hp. rewrite E in Hp. rewrite Hp.
    pose proof (dropChars_app pat s) as Hd. rewrite E in Hd. exact Hd.
  - pose proof (isPrefix_app pat s) as Hp. rewrite E in Hp. rewrite Hp.
    pose proof (dropChars_app pat s) as Hd. rewrite E in Hd. exact Hd.
Qed.

(** X25: the title of a captured file, "File: " followed by the file
    name, gives the file name back when the name does not hold the text
    "Selection - "; the title of a captured selection, "Selection - "
    followed by the file name, gives it back when the name does not hold the
    text "File: ". *)
Theorem getFileNameFromTitle_round_trip (name : string) :
  (JS.includes name "Selection - " = false ->
   Extension.getFileNameFromTitle ("File: " +:+ name) = name)
  ∧ (JS.includes name "File: " = false ->
     Extension.getFileNameFromTitle ("Selection - " +:+ name) = name).
Proof.
  unfold Extension.getFileNameFromTitle. split.
  - intros Hname. rewrite (replaceFirst_prefix "File: " name).
    by apply replaceFirst_absent.
  - intros Hname.
    rewrite (replaceFirst_absent "File: " EmptyString ("Selection - " +:+ name)).
    + apply (replaceFirst_prefix "Selection - " name).
    + simpl. exact Hname.
Qed.

Lemma getFileNameFromTitle_round_trip_witness :
  JS.includes "app.ts" "Selection - " = false
  ∧ Extension.getFileNameFromTitle ("File: " +:+ "app.ts") = "app.ts".
Proof.
  assert (JS.includes "app.ts" "Selection - " = false) as H by reflexivity.
  split; [exact H|].
  exact (proj1 (getFileNameFromTitle_round_trip "app.ts") H).
Defined.

(** ** Language ids *)

Lemma assoc_value (key v : string) (l : list (string * string)) :
  Extension.assoc key l = Some v -> v ∈ l.*2.
Proof.
  induction l as [|[k w] l IH]; simpl; [done|].
  destruct (String.eqb key k); [intros [= ->]; by left|].
  intros H. right. by apply IH.
Qed.

(** X26: mapping a language id is idempotent: the name it gives for an
    editor language maps to itself, so a stored snippet's language and the
    mapped language of the editor compare alike however often the mapping
    was applied. *)
Theorem mapLanguageId_idempotent (languageId name : string) :
  Extension.mapLanguageId languageId = Some name ->
  Extension.mapLanguageId name = Some name.
Proof.
  unfold Extension.mapLanguageId at 1.
  destruct (Extension.assoc languageId Extension.languageMap) as [v|] eqn:Ha.
  - intros [= ->]. apply assoc_value in Ha.
    assert (Forall (fun v => Extension.mapLanguageId v = Some v)
                   Extension.languageMap.*2) as Hall.
    { vm_compute. repeat constructor. }
    rewrite Forall_forall in Hall. by apply Hall.
  - destruct (JS.has Extension.inheritedKeys languageId) eqn:Hk; [done|].
    intros [= <-]. unfold Extension.mapLanguageId. by rewrite Ha, Hk.
Qed.

Lemma mapLanguageId_idempotent_witness :
  Extension.mapLanguageId "typescriptreact" = Some "typescript"
  ∧ Extension.mapLanguageId "typescript" = Some "typescript".
Proof.
  assert (Extension.mapLanguageId "typescriptreact" = Some "typescript") as H
    by reflexivity.
  split; [exact H|].
  exact (mapLanguageId_idempotent "typescriptreact" "typescript" H).
Defined.

(** ** The extension's token overlap *)

Lemma filter_all {A} (P : A -> Prop) `{!forall x, Decision (P x)} (l : list A) :
  Forall P l -> filter P l = l.
Proof.
  induction 1 as [|x l Hx Hl IH]; [done|].
  by rewrite filter_cons, decide_True, IH.
Qed.

(** X27: the overlap test counts token occurrences of its first argument:
    a code passes against itself exactly when it has more than 3 tokens,
    repeated ones counted, and no code passes against a code without
    tokens. *)
Theorem isCodeSimilar_counts_occurrences (code1 code2 : string) :
  Extension.isCodeSimilar code1 code1
  = (3 <? length (Extension.similarTokens code1))%nat
  ∧ (Extension.isCodeSimilar code1 code2 = true ->
     (3 < length (Extension.similarTokens code1))%nat
     ∧ exists t, t ∈ Extension.similarTokens code1 ∧ t ∈ Extension.similarTokens code2)
  ∧ (Extension.similarTokens code2 = [] -> Extension.isCodeSimilar code1 code2 = false).
Proof.
  unfold Extension.isCodeSimilar. cbv zeta. split_and!.
  - rewrite filter_all; [done|]. by apply Forall_forall.
  - intros H%Nat.ltb_lt. split.
    + pose proof (length_filter (fun token => token ∈ Extension.similarTokens code2)
                    (Extension.similarTokens code1)). lia.
    + destruct (filter _ _) as [|t l] eqn:Hf; [simpl in H; lia|].
      assert (t ∈ filter (fun token => token ∈ Extension.similarTokens code2)
                    (Extension.similarTokens code1)) as Ht by (rewrite Hf; by left).
      apply list_elem_of_filter in Ht as [? ?]. by exists t.
  - intros ->.
    assert (filter (fun token : string => token ∈ [])
              (Extension.similarTokens code1) = []) as ->; [|done].
    induction (Extension.similarTokens code1) as [|t l IH]; [done|].
    rewrite filter_cons, decide_False by apply not_elem_of_nil. exact IH.
Qed.

(** ** The explanation of a returned suggestion *)

Lemma common_token_of_positive (t1 t2 : list string) :
  (0 < jaccard t1 t2)%Q -> exists x, x ∈ t1 ∧ x ∈ t2.
Proof.
  intros Hpos.
  destruct (JS.mkSet (filter (fun y => JS.has (JS.mkSet t2) y) (JS.mkSet t1)))
    as [|x l] eqn:Hl.
  - exfalso. apply (Qlt_irrefl 0). eapply Qlt_le_trans; [exact Hpos|].
    apply Qle_lteq. right.
    destruct (jaccard_cases t1 t2) as [(_ & _ & ->)|[_ ->]]; [done|].
    apply ratio_zero. by rewrite Hl.
  - exists x. apply elem_of_intersection. rewrite Hl. by left.
Qed.

Lemma isPrefix_refl (s : string) : JS.isPrefix s s = true.
Proof. induction s as [|c s IH]; simpl; [done|]. by rewrite Ascii.eqb_refl, IH. Qed.

Lemma isPrefix_app_both (a b c : string) :
  JS.isPrefix (a +:+ b) (a +:+ c) = JS.isPrefix b c.
Proof. induction a as [|x a IH]; simpl; [done|]. by rewrite Ascii.eqb_refl, IH. Qed.

(** X28: every suggestion the ranker returns is explained by its common
    tokens: the snippet's distinct tokens that are tokens of the query are at
    least one, and the context is "Common patterns: " followed by the first
    3 of them, the first one a token of both codes of at least 3 characters;
    it is never the fallback "Structural similarity detected". *)
Theorem rank_context_names_common_tokens (q : string) (corpus : list Snippet) :
  Forall (fun a =>
            context a <> "Structural similarity detected"
            ∧ exists t rest,
                filter (fun t => t ∈ Server.tokenizeCode q)
                  (JS.mkSet (Server.tokenizeCode (code (snippet a)))) = t :: rest
                ∧ t ∈ Server.tokenizeCode (code (snippet a))
                ∧ t ∈ Server.tokenizeCode q
                ∧ (3 <= String.length t)%nat
                ∧ context a
                  = "Common patterns: " +:+ JS.join ", " (take 3 (t :: rest))
                ∧ JS.isPrefix ("Common patterns: " +:+ t) (context a) = true)
         (Server.analyzeSimilarity q corpus).
Proof.
  apply Forall_forall. intros a Ha%analyzeSimilarity_subset.
  pose proof (collect_each q corpus) as H.
  rewrite Forall_forall in H. destruct (H a Ha) as (_ & Hc & Hlt & _ & Hctx).
  rewrite Hc, calculateSimilarity_jaccard in Hlt.
  destruct (common_token_of_positive _ _ (Qlt_trans 0 (3 # 10) _ eq_refl Hlt))
    as (x & Hxq & Hxs).
  assert (filter (fun token => JS.has (JS.mkSet (Server.tokenizeCode q)) token)
            (JS.mkSet (Server.tokenizeCode (code (snippet a))))
          = filter (fun t => t ∈ Server.tokenizeCode q)
              (JS.mkSet (Server.tokenizeCode (code (snippet a))))) as Hcommon.
  { apply list_filter_iff. intros t.
    unfold JS.has. by rewrite bool_decide_spec, elem_of_mkSet. }
  rewrite Hctx. unfold Server.getCodeContext, JS.slice0. cbv zeta.
  rewrite Hcommon. clear Hcommon Hctx.
  destruct (filter (fun t => t ∈ Server.tokenizeCode q)
              (JS.mkSet (Server.tokenizeCode (code (snippet a)))))
    as [|t l] eqn:Hf.
  - exfalso.
    assert (x ∈ filter (fun t => t ∈ Server.tokenizeCode q)
                   (JS.mkSet (Server.tokenizeCode (code (snippet a))))) as Hx.
    { apply list_elem_of_filter. by rewrite elem_of_mkSet. }
    rewrite Hf in Hx. by apply not_elem_of_nil in Hx.
  - assert (t ∈ filter (fun t => t ∈ Server.tokenizeCode q)
                   (JS.mkSet (Server.tokenizeCode (code (snippet a))))) as Ht
      by (rewrite Hf; by left).
    apply list_elem_of_filter in Ht as [Htq Hts]. rewrite elem_of_mkSet in Hts.
    cbn [length Nat.ltb Nat.leb].
    split; [done|]. exists t, l. split_and!; try done.
    + unfold Server.tokenizeCode in Htq.
      apply list_elem_of_filter in Htq as [_ [Hlen _]%list_elem_of_filter].
      simpl in Hlen. lia.
    + rewrite isPrefix_app_both. cbn [firstn].
      destruct (take 2 l) as [|t2 l2]; cbn [JS.join];
        [apply isPrefix_refl | apply isPrefix_app].
Qed.

(** X29: the line similarity of the duplicate guard is 0 or 1 for every
    pair of codes, never a value in between. *)
Theorem line_similarity_is_0_or_1 (code1 code2 : string) :
  (Extension.calculateCodeSimilarity code1 code2 == 0)%Q
  ∨ (Extension.calculateCodeSimilarity code1 code2 == 1)%Q.
Proof. apply calculateCodeSimilarity_all_or_nothing. Qed.
